(** * The nightly-build index generator, [scripts/make-index.py]

    A shallow embedding of the script's [main] procedure and the
    properties of it that the design notes state.  The script loads the
    list of build records from [index.json], optionally appends the record
    described by the command line, deletes the releases of the records that
    fall out of the retention window through the GitHub API, fetches the
    list of builder container images, renders [index.html] from a Jinja
    template, and writes the record list back.

    Everything outside of the script is gathered in a [world]: the parsed
    command line, the process environment, the outcome of reading the state
    file, the answers of the remote API and the clock.  The script's
    effects are the [event]s it emits, in order: what it prints, the
    requests it sends, the files it opens and what it writes to them.

    What the model leaves out: the records of the state file have the keys
    the script itself writes (a record is a [build], not an arbitrary JSON
    object); the text that [json.dump] produces is not spelled out, the
    document handed to it is; the standard error stream is not recorded;
    the date parser of [dateutil] is a parameter. *)

From Stdlib Require Import Ascii ZArith Lia.
From stdpp Require Import gmap strings list pretty.

Open Scope Z_scope.

(** ** Python and text helpers *)

Definition nl : string := String "010"%char EmptyString.
Definition dq : string := String "034"%char EmptyString.

(** [q s] is [s] between double quotes. *)
Definition q (s : string) : string := dq +:+ s +:+ dq.

(** One line of template text, with its end of line. *)
Definition line (s : string) : string := s +:+ nl.

Fixpoint cat (l : list string) : string :=
  match l with
  | [] => EmptyString
  | s :: l' => s +:+ cat l'
  end.

(** Python's normalisation of a slice bound [i] for a sequence of length
    [len]: a negative bound counts from the end, and every bound is clamped
    to the sequence. *)
Definition slice_bound (len i : Z) : nat :=
  Z.to_nat (if i <? 0 then Z.max (len + i) 0 else Z.min i len).

(** [l[:stop]] *)
Definition slice_to {A} (stop : Z) (l : list A) : list A :=
  take (slice_bound (Z.of_nat (length l)) stop) l.

(** [l[start:]] *)
Definition slice_from {A} (start : Z) (l : list A) : list A :=
  drop (slice_bound (Z.of_nat (length l)) start) l.

(** [s[:stop]] on a [str]. *)
Definition str_slice_to (stop : Z) (s : string) : string :=
  String.string_of_list_ascii (slice_to stop (String.list_ascii_of_string s)).

(** [s.split(sep)] for a one-character separator: the pieces between the
    occurrences of [sep]; never an empty list. *)
Fixpoint split (sep : ascii) (s : string) : list string :=
  match s with
  | EmptyString => [EmptyString]
  | String c s' =>
      if Ascii.eqb c sep then EmptyString :: split sep s'
      else match split sep s' with
           | [] => [String c EmptyString]
           | p :: ps => String c p :: ps
           end
  end.

(** Truth value of a string, as of an [Optional[str]]: [None] and the empty
    string are false. *)
Definition str_truthy (s : string) : bool :=
  match s with EmptyString => false | String _ _ => true end.

Definition truthy (o : option string) : bool :=
  match o with None => false | Some s => str_truthy s end.

(** ** Constants of the script *)

Definition REPO : string := "openslide/builds".
Definition CONTAINERS : list string :=
  ["openslide/linux-builder"; "openslide/winbuild-builder"].
Definition HTML : string := "index.html".
Definition JSON : string := "index.json".
Definition RETAIN : Z := 30.

(** ** Data model *)

(** A build record: one element of the ["builds"] list of the state file.
    The keys are the ones the script writes when it appends a record;
    ["win32"] is read with [record.get('win32', False)] and only present in
    records of older state files. *)
Record build := Build {
  pkgver : string;
  date : string;
  linux_builder : string;
  windows_builder : string;
  openslide : string;
  openslide_java : string;
  openslide_winbuild : string;
  win32 : option bool;
}.

(** The [argparse] namespace. An option that was not given is [None]. *)
Record Namespace := {
  arg_dir : string;
  arg_pkgver : option string;
  arg_linux_builder : option string;
  arg_windows_builder : option string;
  arg_openslide : option string;
  arg_java : option string;
  arg_winbuild : option string;
}.

(** The exceptions that reach the top level of the script. *)
Inductive exn :=
  | KeyError (key : string)
  | IOError
  | ValueError
  | TypeError
  | SystemExit (code : Z)
  | ParserError
  | RequestException
  | HTTPError (status : Z)
  | UndefinedError.

Inductive result (A : Type) :=
  | Ok (a : A)
  | Raise (e : exn).
Arguments Ok {A} a.
Arguments Raise {A} e.

(** *** The remote API *)

Inductive method := GET | DELETE.

Record request := {
  req_method : method;
  req_url : string;
  req_headers : list (string * string);
}.

(** An element of the package-versions listing. *)
Record image := {
  image_name : string;
  image_html_url : string;
}.

(** The decoded body of a response, by the shapes the script reads: a
    release object with its ["id"], a list of package versions, or
    anything else. *)
Inductive body :=
  | ReleaseBody (id : Z)
  | VersionsBody (images : list image)
  | OtherBody.

Record response := {
  status_code : Z;
  resp_body : body;
}.

(** What a call of [requests.get] or [requests.delete] does: it raises
    (no connection, time-out, ...) or returns a response. *)
Inductive reply :=
  | NoReply
  | Reply (r : response).

(** *** Files and output *)

(** [dir / name] *)
Inductive path := PathDiv (dir name : string).

(** What is written to a file: text, or the document
    [{'builds': ..., 'last_update': ...}] handed to [json.dump]. *)
Inductive data :=
  | Text (s : string)
  | JsonDoc (builds : list build) (last_update : Z).

Inductive event :=
  | Print (s : string)
  | Request (r : request)
  | OpenW (p : path)
  | Write (p : path) (d : data).

(** *** The world *)

Record world := {
  args : Namespace;
  environ : gmap string string;
  (** the outcome of [json.load(open(dir / JSON))['builds']] *)
  state_file : result (list build);
  (** the reply to a request, given the requests made before it *)
  remote : list request -> request -> reply;
  (** [int(datetime.now().timestamp())] *)
  now : Z;
}.

(** ** The effect monad

    A computation reads the events emitted so far and yields its outcome
    together with the events it emits itself. An exception ends the
    computation; the events emitted before it stay. *)

Definition M (A : Type) : Type := list event -> result A * list event.

#[export] Instance M_ret : MRet M := fun A a _ => (Ok a, []).

#[export] Instance M_bind : MBind M := fun A B f m h =>
  match m h with
  | (Ok a, evs) =>
      match f a (h ++ evs) with
      | (r, evs') => (r, evs ++ evs')
      end
  | (Raise e, evs) => (Raise e, evs)
  end.

Definition raise {A} (e : exn) : M A := fun _ => (Raise e, []).

Definition emit (ev : event) : M unit := fun _ => (Ok tt, [ev]).

(** [try: m except e: handler(e)], for the exceptions [catches] selects. *)
Definition try_except {A} (m : M A) (catches : exn -> bool) (handler : M A) : M A :=
  fun h =>
    match m h with
    | (Ok a, evs) => (Ok a, evs)
    | (Raise e, evs) =>
        if catches e then
          match handler (h ++ evs) with
          | (r, evs') => (r, evs ++ evs')
          end
        else (Raise e, evs)
    end.

Definition lift {A} (r : result A) : M A := fun _ => (r, []).

Definition requests_of (h : list event) : list request :=
  omap (fun ev => match ev with Request r => Some r | _ => None end) h.

Definition print (s : string) : M unit := emit (Print s).

(** Exceptions in pure code: the template renderer. *)
#[export] Instance result_ret : MRet result := fun A a => Ok a.

#[export] Instance result_bind : MBind result := fun A B f r =>
  match r with
  | Ok a => f a
  | Raise e => Raise e
  end.

(** [for x in l: body(x)] *)
Fixpoint for_each {A} (l : list A) (body : A -> M unit) : M unit :=
  match l with
  | [] => mret tt
  | x :: l' => body x;; for_each l' body
  end.

(** ** The template

    The text of [template], rendered the way Jinja renders it with its
    default settings: blocks are not trimmed, so the white space around the
    tags is part of the output; nothing is escaped; one new line at the end
    of the template is dropped. *)

(** [l[1]] in a template, followed by an attribute access or a slice: an
    index out of range yields an undefined value, and the use of it raises
    [UndefinedError]. *)
Definition jinja_item1 (l : list string) : result string :=
  match l with
  | _ :: x :: _ => Ok x
  | _ => Raise UndefinedError
  end.

(** [{% macro revision_link(repo, prev, cur) %}] *)
Definition revision_link (repo : string) (prev : option string) (cur : string) : string :=
  cat [
    nl; "  ";
    match prev with
    | Some p =>
        if str_truthy p then
          cat [
            nl;
            line ("    <a href=" +:+ q ("https://github.com/openslide/" +:+ repo
                    +:+ "/compare/" +:+ str_slice_to 8 p +:+ "..."
                    +:+ str_slice_to 8 cur) +:+ ">");
            line ("      " +:+ str_slice_to 8 cur);
            line "    </a>";
            "  " ]
        else cat [ nl; line ("    " +:+ str_slice_to 8 cur); "  " ]
    | None => cat [ nl; line ("    " +:+ str_slice_to 8 cur); "  " ]
    end;
    nl ].

(** [{% macro builder_link(builder) %}] *)
Definition builder_link (container_images : gmap string string) (builder : string)
    : result string :=
  at_part ← jinja_item1 (split "@" builder);
  colon_part ← jinja_item1 (split ":" at_part);
  let builder_short := str_slice_to 8 colon_part in
  mret (cat [
    nl; "  ";
    nl; "  ";
    match container_images !! builder with
    | Some url =>
        cat [
          nl;
          line ("    <a href=" +:+ q url +:+ ">");
          line ("      " +:+ builder_short);
          line "    </a>";
          "  " ]
    | None => cat [ nl; line ("    " +:+ builder_short); "  " ]
    end;
    nl ]).

(** The input of the template for one build: an element of [rows]. *)
Record row := Row {
  row_date : string;
  row_pkgver : string;
  row_linux_builder : string;
  row_windows_builder : string;
  openslide_prev : option string;
  openslide_cur : string;
  java_prev : option string;
  java_cur : string;
  winbuild_prev : option string;
  winbuild_cur : string;
  row_win32 : bool;
}.

Definition download_url (r : row) (kind : string) : string :=
  "https://github.com/openslide/builds/releases/download/windows-"
    +:+ row_pkgver r +:+ "/openslide-" +:+ kind +:+ "-" +:+ row_pkgver r +:+ ".zip".

(** The text up to the loop over the rows. *)
Definition template_head (retain : Z) : string :=
  cat [
    line "<!doctype html>";
    nl;
    line ("<style type=" +:+ q "text/css" +:+ ">");
    line "  table {";
    line "    margin-left: 20px;";
    line "    border-collapse: collapse;";
    line "  }";
    line "  th.repo {";
    line "    padding-right: 1em;";
    line "  }";
    line "  td {";
    line "    padding-right: 20px;";
    line "  }";
    line "  td.date {";
    line "    padding-left: 5px;";
    line "  }";
    line "  td.revision {";
    line "    font-family: monospace;";
    line "  }";
    line "  td.spacer {";
    line "    padding-right: 25px;";
    line "  }";
    line "  td.win64 {";
    line "    padding-right: 5px;";
    line "  }";
    line "  tr {";
    line "    height: 2em;";
    line "  }";
    line "  tr:nth-child(2n) {";
    line "    background-color: #e8e8e8;";
    line "  }";
    line "</style>";
    nl;
    line "<title>OpenSlide development builds</title>";
    line "<h1>OpenSlide development builds</h1>";
    nl;
    line ("<p>Here are the " +:+ pretty retain +:+ " newest successful nightly builds.");
    line "Older builds are automatically deleted.";
    line "Builds are skipped if nothing has changed.";
    nl;
    (* the macro revision_link is defined here *)
    nl;
    nl;
    (* the macro builder_link is defined here *)
    nl;
    nl;
    line "<table>";
    line "  <tr>";
    line "    <th>Date</th>";
    line ("    <th class=" +:+ q "repo" +:+ ">openslide</th>");
    line ("    <th class=" +:+ q "repo" +:+ ">openslide-java</th>");
    line ("    <th class=" +:+ q "repo" +:+ ">openslide-winbuild</th>");
    line ("    <th class=" +:+ q "repo" +:+ ">linux-builder</th>");
    line ("    <th class=" +:+ q "repo" +:+ ">winbuild-builder</th>");
    line "    <th></th>";
    line ("    <th colspan=" +:+ q "3" +:+ ">Downloads</th>");
    line "  </tr>";
    "  " ].

(** The body of [{% for row in rows %}], for one row. *)
Definition template_row (container_images : gmap string string) (r : row)
    : result string :=
  linux ← builder_link container_images (row_linux_builder r);
  windows ← builder_link container_images (row_windows_builder r);
  mret (cat [
    nl;
    line "    <tr>";
    line ("      <td class=" +:+ q "date" +:+ ">" +:+ row_date r +:+ "</td>");
    line ("      <td class=" +:+ q "revision" +:+ ">");
    line ("        " +:+ revision_link "openslide" (openslide_prev r) (openslide_cur r));
    line "      </td>";
    line ("      <td class=" +:+ q "revision" +:+ ">");
    line ("        " +:+ revision_link "openslide-java" (java_prev r) (java_cur r));
    line "      </td>";
    line ("      <td class=" +:+ q "revision" +:+ ">");
    line ("        " +:+ revision_link "openslide-winbuild" (winbuild_prev r) (winbuild_cur r));
    line "      </td>";
    line ("      <td class=" +:+ q "revision" +:+ ">");
    line ("        " +:+ linux);
    line "      </td>";
    line ("      <td class=" +:+ q "revision" +:+ ">");
    line ("        " +:+ windows);
    line "      </td>";
    line ("      <td class=" +:+ q "spacer" +:+ "></td>");
    line ("      <td class=" +:+ q "source" +:+ ">");
    line ("        <a href=" +:+ q (download_url r "winbuild") +:+ ">");
    line "          Source";
    line "        </a>";
    line "      </td>";
    line ("      <td class=" +:+ q "win32" +:+ ">");
    "        ";
    (if row_win32 r then
       cat [
         nl;
         line ("          <a href=" +:+ q (download_url r "win32") +:+ ">");
         line "            Windows 32-bit";
         line "          </a>";
         "        " ]
     else EmptyString);
    nl;
    line "      </td>";
    line ("      <td class=" +:+ q "win64" +:+ ">");
    line ("        <a href=" +:+ q (download_url r "win64") +:+ ">");
    line "          Windows 64-bit";
    line "        </a>";
    line "      </td>";
    line "    </tr>";
    "  " ]).

(** The loop over the rows: the bodies one after the other, up to the
    first that raises. *)
Fixpoint template_rows (container_images : gmap string string) (rows : list row)
    : result string :=
  match rows with
  | [] => mret EmptyString
  | r :: rows' =>
      s ← template_row container_images r;
      s' ← template_rows container_images rows';
      mret (s +:+ s')
  end.

(** The text after the loop; the template's last new line is dropped. *)
Definition template_tail : string := cat [ nl; "</table>" ].

(** [template.render(container_images=..., retain=..., rows=...)] *)
Definition template (container_images : gmap string string) (retain : Z)
    (rows : list row) : result string :=
  table ← template_rows container_images rows;
  mret (template_head retain +:+ table +:+ template_tail).

(** ** The steps of [main] *)

(** [os.environ[key]] *)
Definition os_environ (w : world) (key : string) : M string :=
  match environ w !! key with
  | Some v => mret v
  | None => raise (KeyError key)
  end.

Definition is_IOError (e : exn) : bool :=
  match e with IOError => true | _ => false end.

(** Load records from JSON. *)
Definition load_records (w : world) : M (list build) :=
  try_except (lift (state_file w)) is_IOError (mret []).

(** The value of a command-line option. *)
Definition value (o : option string) : string := default EmptyString o.

(** [parser.error(message)]: the usage and the message go to the standard
    error stream, which is not modelled, and the script exits with
    status 2. *)
Definition parser_error {A} : M A := raise (SystemExit 2).

Section Script.

(** [dateutil.parser.parse(s).date().isoformat()], of the [dateutil]
    library: the ISO date read from [s], or [None] where the library raises
    [ParserError]. *)
Variable dateutil_parse : string -> option string.

(** The record of the build the command line describes, dated [d]. *)
Definition new_record (a : Namespace) (d : string) : build :=
  {| pkgver := value (arg_pkgver a);
     date := d;
     linux_builder := value (arg_linux_builder a);
     windows_builder := value (arg_windows_builder a);
     openslide := value (arg_openslide a);
     openslide_java := value (arg_java a);
     openslide_winbuild := value (arg_winbuild a);
     win32 := None |}.

(** Build new record. *)
Definition build_new_record (a : Namespace) (records : list build) : M (list build) :=
  if truthy (arg_pkgver a) then
    if negb (truthy (arg_linux_builder a)) || negb (truthy (arg_windows_builder a))
       || negb (truthy (arg_openslide a)) || negb (truthy (arg_java a))
       || negb (truthy (arg_winbuild a))
    then parser_error
    else
      match dateutil_parse (hd EmptyString (split "-" (value (arg_pkgver a)))) with
      | None => raise ParserError
      | Some d => mret (records ++ [new_record a d])
      end
  else mret records.

Definition make_headers (token : string) : list (string * string) :=
  [ ("Accept", "application/vnd.github.v3+json");
    ("Authorization", "token " +:+ token) ].

(** [requests.get(url, headers=headers)] and
    [requests.delete(url, headers=headers)] *)
Definition requests_call (w : world) (m : method) (url : string)
    (headers : list (string * string)) : M response :=
  fun h =>
    let req := {| req_method := m; req_url := url; req_headers := headers |} in
    match remote w (requests_of h) req with
    | NoReply => (Raise RequestException, [Request req])
    | Reply r => (Ok r, [Request req])
    end.

Definition requests_get (w : world) := requests_call w GET.
Definition requests_delete (w : world) := requests_call w DELETE.

(** [resp.raise_for_status()], of the [requests] library: the client and
    server error codes raise. *)
Definition is_error_status (status : Z) : bool :=
  (400 <=? status) && (status <? 600).

Definition raise_for_status (resp : response) : M unit :=
  if is_error_status (status_code resp) then raise (HTTPError (status_code resp))
  else mret tt.

(** [resp.json()["id"]]. A body of another shape raises one of
    [ValueError], [KeyError] and [TypeError]; the model names them all
    [TypeError]. *)
Definition release_id (resp : response) : M Z :=
  match resp_body resp with
  | ReleaseBody id => mret id
  | _ => raise TypeError
  end.

(** [resp.json()] iterated as a list of images, same convention. *)
Definition versions (resp : response) : M (list image) :=
  match resp_body resp with
  | VersionsBody images => mret images
  | _ => raise TypeError
  end.

Definition release_tag_url (record : build) : string :=
  "https://api.github.com/repos/" +:+ REPO +:+ "/releases/tags/windows-"
    +:+ pkgver record.

Definition release_url (id : Z) : string :=
  "https://api.github.com/repos/" +:+ REPO +:+ "/releases/" +:+ pretty id.

(** The body of the loop over [records[:-RETAIN]]. *)
Definition delete_release (w : world) (headers : list (string * string))
    (record : build) : M unit :=
  print ("Deleting " +:+ pkgver record +:+ "...");;
  resp ← requests_get w (release_tag_url record) headers;
  if status_code resp =? 404 then
    print "...already gone"
  else
    raise_for_status resp;;
    id ← release_id resp;
    resp' ← requests_delete w (release_url id) headers;
    raise_for_status resp'.

(** Update records. *)
Definition update_records (w : world) (headers : list (string * string))
    (records : list build) : M (list build) :=
  for_each (slice_to (- RETAIN) records) (delete_release w headers);;
  mret (slice_from (- RETAIN) records).

Definition versions_url (container_org container_name : string) : string :=
  "https://api.github.com/orgs/" +:+ container_org +:+ "/packages/container/"
    +:+ container_name +:+ "/versions?per_page=100".

Definition image_ref (container_org container_name : string) (i : image) : string :=
  "ghcr.io/" +:+ container_org +:+ "/" +:+ container_name +:+ "@" +:+ image_name i.

(** The body of the loop over [CONTAINERS]. *)
Definition container_versions (w : world) (headers : list (string * string))
    (container_images : gmap string string) (container : string)
    : M (gmap string string) :=
  match split "/" container with
  | [container_org; container_name] =>
      resp ← requests_get w (versions_url container_org container_name) headers;
      raise_for_status resp;;
      images ← versions resp;
      mret (foldl (fun m i => <[image_ref container_org container_name i
                                := image_html_url i]> m)
                  container_images images)
  | _ => raise ValueError
  end.

Fixpoint get_container_images_from (w : world) (headers : list (string * string))
    (container_images : gmap string string) (containers : list string)
    : M (gmap string string) :=
  match containers with
  | [] => mret container_images
  | container :: containers' =>
      container_images' ← container_versions w headers container_images container;
      get_container_images_from w headers container_images' containers'
  end.

(** Get builder container image URLs. *)
Definition get_container_images (w : world) (headers : list (string * string))
    : M (gmap string string) :=
  get_container_images_from w headers ∅ CONTAINERS.

(** The local function [prev(key)] of the loop over the records. *)
Definition prev (prev_record : option build) (record : build)
    (key : build -> string) : option string :=
  match prev_record with
  | Some p => if bool_decide (key record ≠ key p) then Some (key p) else None
  | None => None
  end.

Definition make_row (prev_record : option build) (record : build) : row :=
  {| row_date := date record;
     row_pkgver := pkgver record;
     row_linux_builder := linux_builder record;
     row_windows_builder := windows_builder record;
     openslide_prev := prev prev_record record openslide;
     openslide_cur := openslide record;
     java_prev := prev prev_record record openslide_java;
     java_cur := openslide_java record;
     winbuild_prev := prev prev_record record openslide_winbuild;
     winbuild_cur := openslide_winbuild record;
     row_win32 := default false (win32 record) |}.

(** Generate rows for HTML template: the loop carries [rows] and
    [prev_record]. *)
Definition generate_rows (records : list build) : list row :=
  fst (foldl (fun '(rows, prev_record) record =>
                (rows ++ [make_row prev_record record], Some record))
             ([], None) records).

(** Write HTML. When the template raises, the file was opened already (and
    holds the text rendered up to there). *)
Definition write_html (a : Namespace) (container_images : gmap string string)
    (rows : list row) : M unit :=
  emit (OpenW (PathDiv (arg_dir a) HTML));;
  html ← lift (template container_images RETAIN (reverse rows));
  emit (Write (PathDiv (arg_dir a) HTML) (Text html));;
  emit (Write (PathDiv (arg_dir a) HTML) (Text nl)).

(** Write records to JSON. *)
Definition write_json (w : world) (records : list build) : M unit :=
  emit (OpenW (PathDiv (arg_dir (args w)) JSON));;
  emit (Write (PathDiv (arg_dir (args w)) JSON) (JsonDoc records (now w)));;
  emit (Write (PathDiv (arg_dir (args w)) JSON) (Text nl)).

(** The records as they are after the step that builds the new record:
    the first three steps of [main]. *)
Definition collect_records (w : world) : M (list build) :=
  _ ← os_environ w "GITHUB_TOKEN";
  records ← load_records w;
  build_new_record (args w) records.

Definition main (w : world) : M unit :=
  token ← os_environ w "GITHUB_TOKEN";
  records ← load_records w;
  records ← build_new_record (args w) records;
  let headers := make_headers token in
  records ← update_records w headers records;
  container_images ← get_container_images w headers;
  let rows := generate_rows records in
  write_html (args w) container_images rows;;
  write_json w records.

(** A run of the script: [main] from the empty history. *)
Definition run (w : world) : result unit * list event := main w [].


End Script.

(** ** Observations of a run *)

(** The data written to the file [name] of the website directory. *)
Definition written (name : string) (log : list event) : list data :=
  omap (fun ev =>
          match ev with
          | Write (PathDiv _ n) d => if bool_decide (n = name) then Some d else None
          | _ => None
          end) log.

(** The record lists written to the state file. *)
Definition persisted (log : list event) : list (list build) :=
  omap (fun ev =>
          match ev with
          | Write _ (JsonDoc builds _) => Some builds
          | _ => None
          end) log.

(** The URLs requested with method [m]. *)
Definition urls_of (m : method) (log : list event) : list string :=
  omap (fun ev =>
          match ev with
          | Request r =>
              match req_method r, m with
              | GET, GET | DELETE, DELETE => Some (req_url r)
              | _, _ => None
              end
          | _ => None
          end) log.

(** A request that looks up a release by its tag. *)
Definition is_release_lookup (r : request) : bool :=
  match req_method r with
  | GET =>
      String.prefix ("https://api.github.com/repos/" +:+ REPO +:+ "/releases/tags/")
                    (req_url r)
  | DELETE => false
  end.

(** The world with another state file. *)
Definition with_state_file (w : world) (s : result (list build)) : world :=
  {| args := args w; environ := environ w; state_file := s;
     remote := remote w; now := now w |}.

(** ** Sample worlds *)

Definition is_digit (c : ascii) : bool :=
  match Ascii.is_nat c with Some _ => true | None => false end.

(** A sample of the date parser, for the package versions the nightly
    builds carry: it reads [YYYYMMDD] and nothing else. *)
Definition compact_date (s : string) : option string :=
  match s with
  | String y1 (String y2 (String y3 (String y4
      (String m1 (String m2 (String d1 (String d2 EmptyString))))))) =>
      if forallb is_digit [y1; y2; y3; y4; m1; m2; d1; d2] then
        Some (String y1 (String y2 (String y3 (String y4
               ("-" +:+ String m1 (String m2
               ("-" +:+ String d1 (String d2 EmptyString))))))))
      else None
  | _ => None
  end.

Definition nightly (n : Z) : build :=
  {| pkgver := "20230101-" +:+ pretty n;
     date := "2023-01-01";
     linux_builder := "ghcr.io/openslide/linux-builder@sha256:0123456789abcdef";
     windows_builder := "ghcr.io/openslide/winbuild-builder@sha256:fedcba9876543210";
     openslide := "aaaaaaaaaaaa" +:+ pretty n;
     openslide_java := "bbbbbbbbbbbb";
     openslide_winbuild := "cccccccccccc";
     win32 := if n =? 1 then Some true else None |}.

Definition sample_image : image :=
  {| image_name := "sha256:0123456789abcdef";
     image_html_url := "https://github.com/orgs/openslide/packages/container/1" |}.

(** A remote that serves every request: release number 7 for every tag,
    the listing [images] for every container. *)
Definition github (images : list image) (hist : list request) (req : request) : reply :=
  match req_method req with
  | DELETE => Reply {| status_code := 204; resp_body := OtherBody |}
  | GET =>
      if is_release_lookup req then
        Reply {| status_code := 200; resp_body := ReleaseBody 7 |}
      else
        Reply {| status_code := 200; resp_body := VersionsBody images |}
  end.

(** A remote on which the releases are gone already. *)
Definition github_gone (hist : list request) (req : request) : reply :=
  if is_release_lookup req then
    Reply {| status_code := 404; resp_body := OtherBody |}
  else github [sample_image] hist req.

(** A remote that is out of order. *)
Definition github_down (hist : list request) (req : request) : reply :=
  Reply {| status_code := 503; resp_body := OtherBody |}.

Definition sample_args : Namespace :=
  {| arg_dir := "docs";
     arg_pkgver := Some "20230301-1";
     arg_linux_builder := Some "ghcr.io/openslide/linux-builder@sha256:0123456789abcdef";
     arg_windows_builder := Some "ghcr.io/openslide/winbuild-builder@sha256:fedcba9876543210";
     arg_openslide := Some "1234567890abcdef";
     arg_java := Some "bbbbbbbbbbbb";
     arg_winbuild := Some "dddddddddddd" |}.

Definition no_args : Namespace :=
  {| arg_dir := "docs"; arg_pkgver := None; arg_linux_builder := None;
     arg_windows_builder := None; arg_openslide := None; arg_java := None;
     arg_winbuild := None |}.

Definition with_pkgver (a : Namespace) (v : option string) : Namespace :=
  {| arg_dir := arg_dir a; arg_pkgver := v;
     arg_linux_builder := arg_linux_builder a;
     arg_windows_builder := arg_windows_builder a;
     arg_openslide := arg_openslide a; arg_java := arg_java a;
     arg_winbuild := arg_winbuild a |}.

Definition sample_environ : gmap string string := {[ "GITHUB_TOKEN" := "t0k3n" ]}.

(** [n] records on file, the sample build on the command line. *)
Definition sample_world (n : nat) (api : list request -> request -> reply) : world :=
  {| args := sample_args;
     environ := sample_environ;
     state_file := Ok (nightly <$> seqZ 1 (Z.of_nat n));
     remote := api;
     now := 1700000000 |}.

(** The records of the sample run on a full state file: 31 on file and the
    new one. *)
Definition sample_records : list build :=
  (nightly <$> seqZ 1 31) ++ [new_record sample_args "2023-03-01"].

(** Another caller of the script: another directory, another token, a
    later time, no new build, and a state file that holds the records the
    sample run keeps. *)
Definition second_caller : world :=
  {| args := {| arg_dir := "site"; arg_pkgver := None;
                arg_linux_builder := None; arg_windows_builder := None;
                arg_openslide := None; arg_java := None; arg_winbuild := None |};
     environ := {[ "GITHUB_TOKEN" := "an0ther" ]};
     state_file := Ok (drop 2 sample_records);
     remote := github [sample_image];
     now := 1800000000 |}.

(** The container images of the sample remote. *)
Definition sample_container_images : gmap string string :=
  {[ "ghcr.io/openslide/linux-builder@sha256:0123456789abcdef"
       := image_html_url sample_image;
     "ghcr.io/openslide/winbuild-builder@sha256:0123456789abcdef"
       := image_html_url sample_image ]}.

(** The first run: no state file yet. *)
Definition first_run : world :=
  with_state_file (sample_world 0 (github [sample_image])) (Raise IOError).

(** A run without a new build. *)
Definition refresh_run (a : Namespace) (env : gmap string string) : world :=
  {| args := a; environ := env;
     state_file := Ok (nightly <$> seqZ 1 2);
     remote := github [sample_image];
     now := 1700000000 |}.

(** A remote that does not answer. *)
Definition github_silent (hist : list request) (req : request) : reply := NoReply.




(** ** Vocabulary of the properties *)

(** A computation is silent when it emits no event and does not look at
    the history. *)
Definition silent {A} (m : M A) : Prop :=
  forall h, m h = ((m []).1, []).

Definition html_path (w : world) : path := PathDiv (arg_dir (args w)) HTML.
Definition json_path (w : world) : path := PathDiv (arg_dir (args w)) JSON.

(** The events of the last two steps. *)
Definition html_events (w : world) (html : string) : list event :=
  [ OpenW (html_path w); Write (html_path w) (Text html);
    Write (html_path w) (Text nl) ].

Definition json_events (w : world) (records : list build) : list event :=
  [ OpenW (json_path w); Write (json_path w) (JsonDoc records (now w));
    Write (json_path w) (Text nl) ].

(** The outcome and the events of a run, step after step. *)
Definition run_shape (parse : string -> option string) (w : world)
    (r : result unit) (log : list event) : Prop :=
  match collect_records parse w [] with
  | (Raise e, _) => r = Raise e /\ log = []
  | (Ok records, _) =>
      exists token,
        environ w !! "GITHUB_TOKEN" = Some token /\
        match update_records w (make_headers token) records [] with
        | (Raise e, evs1) => r = Raise e /\ log = evs1
        | (Ok kept, evs1) =>
            kept = slice_from (- RETAIN) records /\
            match get_container_images w (make_headers token) evs1 with
            | (Raise e, evs2) => r = Raise e /\ log = evs1 ++ evs2
            | (Ok container_images, evs2) =>
                match template container_images RETAIN
                               (reverse (generate_rows kept)) with
                | Raise e =>
                    r = Raise e /\ log = evs1 ++ evs2 ++ [OpenW (html_path w)]
                | Ok html =>
                    r = Ok tt /\
                    log = evs1 ++ evs2 ++ html_events w html ++ json_events w kept
                end
            end
        end
  end.

(** [m] checks the status of every response: at a response with an error
    status it raises [HTTPError] and emits nothing after the request; the
    one exception is a [404] to the lookup of a release, after which it
    prints that the release is gone and goes on. *)
Definition stops_on_error (w : world) {A} (m : M A) : Prop :=
  forall h r evs pre req post resp,
    m h = (r, evs) ->
    evs = pre ++ Request req :: post ->
    remote w (requests_of (h ++ pre)) req = Reply resp ->
    is_error_status (status_code resp) = true ->
    if is_release_lookup req && (status_code resp =? 404)
    then exists post', post = Print "...already gone" :: post'
    else r = Raise (HTTPError (status_code resp)) /\ post = [].

(** The events of the steps that talk to the remote: output and requests. *)
Definition talk (ev : event) : Prop :=
  match ev with
  | Print _ | Request _ => True
  | OpenW _ | Write _ _ => False
  end.

Definition talks {A} (m : M A) : Prop :=
  forall h r evs, m h = (r, evs) -> Forall talk evs.

Definition lookup_request (headers : list (string * string)) (record : build)
    : request :=
  {| req_method := GET; req_url := release_tag_url record; req_headers := headers |}.

Definition delete_request (headers : list (string * string)) (id : Z) : request :=
  {| req_method := DELETE; req_url := release_url id; req_headers := headers |}.

(** The events of a turn of the loop over the expired records: the release
    of the record is looked up; then the release is found gone, or the
    release [id] is deleted. *)
Definition looked_up (headers : list (string * string)) (record : build)
    : list event :=
  [ Print ("Deleting " +:+ pkgver record +:+ "...");
    Request (lookup_request headers record) ].

Definition found_gone (headers : list (string * string)) (record : build)
    : list event :=
  looked_up headers record ++ [ Print "...already gone" ].

Definition deleted (headers : list (string * string)) (record : build) (id : Z)
    : list event :=
  looked_up headers record ++ [ Request (delete_request headers id) ].

(** [prune_run w headers h expired evs]: after the events [h], the loop
    over the records [expired] runs to its end and emits [evs]. Every
    record has its release looked up. Either the answer is [404], and the
    loop goes to the next record; or the answer has no error status and
    names a release, the release is deleted, and the answer to that has
    no error status. *)
Inductive prune_run (w : world) (headers : list (string * string))
    : list event -> list build -> list event -> Prop :=
  | prune_nil h : prune_run w headers h [] []
  | prune_gone h record resp expired evs :
      remote w (requests_of h) (lookup_request headers record) = Reply resp ->
      status_code resp = 404 ->
      prune_run w headers (h ++ found_gone headers record) expired evs ->
      prune_run w headers h (record :: expired) (found_gone headers record ++ evs)
  | prune_deleted h record resp id resp' expired evs :
      remote w (requests_of h) (lookup_request headers record) = Reply resp ->
      status_code resp <> 404 ->
      is_error_status (status_code resp) = false ->
      resp_body resp = ReleaseBody id ->
      remote w (requests_of h ++ [lookup_request headers record])
        (delete_request headers id) = Reply resp' ->
      is_error_status (status_code resp') = false ->
      prune_run w headers (h ++ deleted headers record id) expired evs ->
      prune_run w headers h (record :: expired) (deleted headers record id ++ evs).


(** The five options that describe a new build are all given. *)
Definition completely_specified (a : Namespace) : bool :=
  truthy (arg_linux_builder a) && truthy (arg_windows_builder a)
  && truthy (arg_openslide a) && truthy (arg_java a) && truthy (arg_winbuild a).

(** *** Vocabulary of the further properties *)

(** [c in s] *)
Fixpoint has_char (c : ascii) (s : string) : bool :=
  match s with
  | EmptyString => false
  | String c' s' => Ascii.eqb c' c || has_char c s'
  end.

(** [sep.join(l)] *)
Fixpoint join (sep : ascii) (l : list string) : string :=
  match l with
  | [] => EmptyString
  | [s] => s
  | s :: l' => s +:+ String sep (join sep l')
  end.

(** The text of a builder cell, given the short form of the builder. *)
Definition builder_cell (container_images : gmap string string)
    (builder builder_short : string) : string :=
  cat [
    nl; "  ";
    nl; "  ";
    match container_images !! builder with
    | Some url =>
        cat [
          nl;
          line ("    <a href=" +:+ q url +:+ ">");
          line ("      " +:+ builder_short);
          line "    </a>";
          "  " ]
    | None => cat [ nl; line ("    " +:+ builder_short); "  " ]
    end;
    nl ].

(** A builder reference the template can shorten: [name@algo:digest]. *)
Definition digest_ref (builder : string) : Prop :=
  exists name algo digest,
    builder = name +:+ "@" +:+ algo +:+ ":" +:+ digest /\
    has_char "@" name = false /\
    has_char "@" algo = false /\ has_char ":" algo = false.

(** Every request that [m] sends satisfies [P]. *)
Definition requests_satisfy (P : request -> Prop) {A} (m : M A) : Prop :=
  forall h r evs, m h = (r, evs) -> Forall P (requests_of evs).

(** A request of the script: to the API host, with the headers that carry
    the token. *)
Definition authorized (token : string) (r : request) : Prop :=
  req_headers r = make_headers token /\
  String.prefix "https://api.github.com/" (req_url r) = true.

(** [m] stops at the first request that gets no response: it raises and
    emits nothing after the request. *)
Definition stops_without_reply (w : world) {A} (m : M A) : Prop :=
  forall h r evs pre req post,
    m h = (r, evs) ->
    evs = pre ++ Request req :: post ->
    remote w (requests_of (h ++ pre)) req = NoReply ->
    r = Raise RequestException /\ post = [].


Definition versions_request (headers : list (string * string))
    (container_org container_name : string) : request :=
  {| req_method := GET; req_url := versions_url container_org container_name;
     req_headers := headers |}.

(** The URL of the last image of the listing [images] that is named
    [name]. *)
Definition listed_url (images : list image) (name : string) : option string :=
  image_html_url <$> last (filter (fun i => image_name i = name) images).


(** Every deletion that [m] requests follows at once the lookup of one of
    the records [expired], and is for the release named in the answer. *)
Definition deletes_looked_up (w : world) (headers : list (string * string))
    (expired : list build) {A} (m : M A) : Prop :=
  forall h r evs pre req post,
    m h = (r, evs) ->
    evs = pre ++ Request req :: post ->
    req_method req = DELETE ->
    exists pre' record resp id,
      pre = pre' ++ [Request (lookup_request headers record)] /\
      record ∈ expired /\
      remote w (requests_of (h ++ pre')) (lookup_request headers record)
        = Reply resp /\
      status_code resp <> 404 /\
      resp_body resp = ReleaseBody id /\
      req = delete_request headers id.

(** * Properties *)

(** ** The helpers on sample inputs *)

Example split_pkgver :
  split "-" "20230301-1-gabcdef" = ["20230301"; "1"; "gabcdef"].
Proof. reflexivity. Qed.

Example split_without_separator : split "@" "linux-builder" = ["linux-builder"].
Proof. reflexivity. Qed.

Example split_empty : split "-" EmptyString = [EmptyString].
Proof. reflexivity. Qed.

Example slice_to_short : slice_to (- RETAIN) (seqZ 1 5) = [].
Proof. reflexivity. Qed.

Example slice_from_short : slice_from (- RETAIN) (seqZ 1 5) = seqZ 1 5.
Proof. reflexivity. Qed.

Example slice_to_long : slice_to (- RETAIN) (seqZ 1 32) = [1; 2].
Proof. reflexivity. Qed.

Example slice_from_long : slice_from (- RETAIN) (seqZ 1 32) = seqZ 3 30.
Proof. reflexivity. Qed.

Example str_slice_to_commit :
  str_slice_to 8 "0123456789abcdef" = "01234567" /\ str_slice_to 8 "0123" = "0123".
Proof. split; reflexivity. Qed.

Example builder_link_short :
  builder_link ∅ "linux-builder" = Raise UndefinedError /\
  builder_link ∅ "ghcr.io/openslide/linux-builder@0123456789" = Raise UndefinedError.
Proof. split; reflexivity. Qed.

Example generate_rows_prev :
  openslide_prev <$> generate_rows [nightly 1; nightly 2; nightly 2]
  = [None; Some "aaaaaaaaaaaa1"; None].
Proof. vm_compute. reflexivity. Qed.

Example compact_date_nightly :
  compact_date "20230301" = Some "2023-03-01" /\ compact_date "nightly" = None.
Proof. split; reflexivity. Qed.

(** ** Slices *)

Lemma slice_from_RETAIN {A} (l : list A) :
  slice_from (- RETAIN) l = drop (length l - 30)%nat l.
Proof.
  unfold slice_from, slice_bound, RETAIN. f_equal.
  change (Z.opp 30 <? 0) with true. cbv iota. lia.
Qed.

Lemma slice_to_RETAIN {A} (l : list A) :
  slice_to (- RETAIN) l = take (length l - 30)%nat l.
Proof.
  unfold slice_to, slice_bound, RETAIN. f_equal.
  change (Z.opp 30 <? 0) with true. cbv iota. lia.
Qed.

Lemma slice_RETAIN_app {A} (l : list A) :
  slice_to (- RETAIN) l ++ slice_from (- RETAIN) l = l.
Proof. rewrite slice_to_RETAIN, slice_from_RETAIN. apply take_drop. Qed.

Lemma length_slice_from_RETAIN {A} (l : list A) :
  length (slice_from (- RETAIN) l) = (length l `min` 30)%nat.
Proof. rewrite slice_from_RETAIN, length_drop. lia. Qed.

Lemma last_slice_from_RETAIN {A} (l : list A) :
  last (slice_from (- RETAIN) l) = last l.
Proof.
  rewrite slice_from_RETAIN.
  destruct (decide (length l = 0)%nat) as [Hl | Hl].
  - destruct l; [done | discriminate].
  - rewrite !last_lookup, lookup_drop, length_drop. f_equal. lia.
Qed.

(** ** The monad *)

Lemma bind_inv {A B} (m : M A) (f : A -> M B) h r evs :
  (m ≫= f) h = (r, evs) ->
  (exists e, m h = (Raise e, evs) /\ r = Raise e) \/
  (exists a evs1 evs2,
     m h = (Ok a, evs1) /\ f a (h ++ evs1) = (r, evs2) /\ evs = evs1 ++ evs2).
Proof.
  unfold mbind, M_bind. destruct (m h) as [[a | e] evs1].
  - destruct (f a (h ++ evs1)) as [r' evs2] eqn:Hf. intros [= <- <-].
    right. by exists a, evs1, evs2.
  - intros [= <- <-]. left. by exists e.
Qed.

Lemma bind_ok {A B} (m : M A) (f : A -> M B) h a evs1 r evs2 :
  m h = (Ok a, evs1) -> f a (h ++ evs1) = (r, evs2) ->
  (m ≫= f) h = (r, evs1 ++ evs2).
Proof. intros Hm Hf. unfold mbind, M_bind. by rewrite Hm, Hf. Qed.

Lemma bind_raise {A B} (m : M A) (f : A -> M B) h e evs :
  m h = (Raise e, evs) -> (m ≫= f) h = (Raise e, evs).
Proof. intros Hm. unfold mbind, M_bind. by rewrite Hm. Qed.


Lemma silent_ret {A} (a : A) : silent (mret a : M A).
Proof. done. Qed.

Lemma silent_raise {A} e : silent (raise e : M A).
Proof. done. Qed.

Lemma silent_lift {A} (r : result A) : silent (lift r).
Proof. done. Qed.

Lemma silent_bind {A B} (m : M A) (f : A -> M B) :
  silent m -> (forall a, silent (f a)) -> silent (m ≫= f).
Proof.
  intros Hm Hf h. unfold mbind, M_bind.
  pose proof (Hm []) as H0. rewrite (Hm h).
  destruct (m []) as [[a | e] evs0]; simpl in *; [| done].
  injection H0 as ->.
  rewrite (Hf a (h ++ [])). by destruct (f a []) as [r evs'].
Qed.

Lemma silent_inv {A} (m : M A) h r evs :
  silent m -> m h = (r, evs) -> evs = [] /\ m [] = (r, []).
Proof.
  intros Hm Hh. rewrite (Hm h) in Hh. injection Hh as <- <-.
  split; [done |]. by rewrite (Hm []).
Qed.

(** ** The first steps: token, state file, new record *)

Lemma silent_os_environ w key : silent (os_environ w key).
Proof. unfold os_environ. destruct (environ w !! key); done. Qed.

Lemma silent_load_records w : silent (load_records w).
Proof.
  intros h. unfold load_records, try_except, lift.
  destruct (state_file w) as [l | e]; [done |]. by destruct (is_IOError e).
Qed.

Lemma silent_build_new_record parse a records :
  silent (build_new_record parse a records).
Proof.
  unfold build_new_record.
  destruct (truthy (arg_pkgver a)); [| done].
  destruct (_ || _); [done |].
  by destruct (parse _).
Qed.

Lemma silent_raise_for_status resp : silent (raise_for_status resp).
Proof. unfold raise_for_status. by destruct (is_error_status _). Qed.

Lemma silent_release_id resp : silent (release_id resp).
Proof. unfold release_id. by destruct (resp_body resp). Qed.

Lemma silent_versions resp : silent (versions resp).
Proof. unfold versions. by destruct (resp_body resp). Qed.

Create HintDb silent.

#[local] Hint Resolve silent_ret silent_raise silent_lift silent_os_environ
  silent_load_records silent_build_new_record silent_raise_for_status
  silent_release_id silent_versions : silent.

(** A sequence of silent steps is silent. *)
Ltac silent_steps :=
  repeat first [ solve [ auto with silent ]
               | apply silent_bind; [| intros ? ] ].

Lemma silent_collect_records parse w : silent (collect_records parse w).
Proof. unfold collect_records. silent_steps. Qed.

Lemma collect_records_inv parse w records :
  collect_records parse w [] = (Ok records, []) ->
  exists token loaded,
    environ w !! "GITHUB_TOKEN" = Some token /\
    (state_file w = Ok loaded \/ state_file w = Raise IOError /\ loaded = []) /\
    build_new_record parse (args w) loaded [] = (Ok records, []).
Proof.
  unfold collect_records, os_environ. intros H.
  destruct (environ w !! "GITHUB_TOKEN") as [token |] eqn:Htoken;
    [| discriminate].
  apply bind_inv in H as [(e & _ & [=]) | (_ & evs1 & evs2 & _ & H & _)].
  apply bind_inv in H as [(e & _ & [=]) | (loaded & evs3 & evs4 & Hload & H & _)].
  exists token, loaded. split; [done |]. split.
  - revert Hload. unfold load_records, try_except, lift.
    destruct (state_file w) as [l | []] eqn:Hfile; simpl; intros ?;
      simplify_eq; eauto.
  - by apply (silent_inv _ _ _ _ (silent_build_new_record _ _ _)) in H as [_ H].
Qed.

(** ** The shape of a run *)


Lemma update_records_kept w headers records h kept evs :
  update_records w headers records h = (Ok kept, evs) ->
  kept = slice_from (- RETAIN) records.
Proof.
  unfold update_records. intros H.
  apply bind_inv in H as [(e & _ & [=]) | (_ & evs1 & evs2 & _ & H & _)].
  by injection H as <- _.
Qed.

Lemma bind_silent_ok {A B} (m : M A) (f : A -> M B) h a :
  silent m -> (m []).1 = Ok a -> (m ≫= f) h = f a h.
Proof.
  intros Hm Ha. unfold mbind, M_bind. rewrite (Hm h), Ha.
  rewrite app_nil_r. by destruct (f a h).
Qed.

Lemma bind_silent_raise {A B} (m : M A) (f : A -> M B) h e :
  silent m -> (m []).1 = Raise e -> (m ≫= f) h = (Raise e, []).
Proof. intros Hm He. unfold mbind, M_bind. by rewrite (Hm h), He. Qed.

Lemma run_has_shape parse w : run_shape parse w (run parse w).1 (run parse w).2.
Proof.
  unfold run_shape, run, main, collect_records.
  destruct (os_environ w "GITHUB_TOKEN" []).1 as [token | e] eqn:Htoken.
  2: { by rewrite !(bind_silent_raise _ _ _ _ (silent_os_environ _ _) Htoken). }
  rewrite !(bind_silent_ok _ _ _ _ (silent_os_environ _ _) Htoken).
  destruct (load_records w []).1 as [loaded | e] eqn:Hload.
  2: { by rewrite !(bind_silent_raise _ _ _ _ (silent_load_records _) Hload). }
  rewrite !(bind_silent_ok _ _ _ _ (silent_load_records _) Hload).
  pose proof (silent_build_new_record parse (args w) loaded []) as Hsilent.
  destruct (build_new_record parse (args w) loaded [])
    as [[records | e] evs0] eqn:Hnew; simpl in Hsilent;
    injection Hsilent as ->.
  2: { by rewrite (bind_raise _ _ _ _ _ Hnew). }
  erewrite bind_ok; [| done |]; last first.
  { rewrite app_nil_r. apply surjective_pairing. }
  simpl.
  exists token. split.
  { revert Htoken. unfold os_environ.
    by destruct (environ w !! "GITHUB_TOKEN"); intros [=]; subst. }
  destruct (update_records w (make_headers token) records [])
    as [[kept | e] evs1] eqn:Hupd.
  2: { by rewrite (bind_raise _ _ _ _ _ Hupd). }
  split; [by eapply update_records_kept |].
  destruct (get_container_images w (make_headers token) evs1)
    as [[container_images | e] evs2] eqn:Himg.
  2: { erewrite bind_ok; [| done | by apply bind_raise]. done. }
  unfold write_html, write_json.
  destruct (template container_images RETAIN (reverse (generate_rows kept)))
    as [html | e] eqn:Hhtml.
  - erewrite bind_ok; [| done |].
    2: { erewrite bind_ok; [| done |]. 2: { unfold mbind, M_bind, emit, lift. rewrite Hhtml. simpl. done. } done. }
    done.
  - erewrite bind_ok; [| done |].
    2: { erewrite bind_ok; [| done |]. 2: { unfold mbind, M_bind, emit, lift. rewrite Hhtml. simpl. done. } done. }
    done.
Qed.

(** ** Error statuses *)


Lemma requests_of_app h1 h2 :
  requests_of (h1 ++ h2) = requests_of h1 ++ requests_of h2.
Proof. apply omap_app. Qed.

Lemma stops_on_error_silent w {A} (m : M A) : silent m -> stops_on_error w m.
Proof.
  intros Hm h r evs pre req post resp Hrun Hevs.
  apply (silent_inv _ _ _ _ Hm) in Hrun as [-> _].
  by destruct pre.
Qed.

Lemma stops_on_error_bind w {A B} (m : M A) (f : A -> M B) :
  stops_on_error w m -> (forall a, stops_on_error w (f a)) ->
  stops_on_error w (m ≫= f).
Proof.
  unfold stops_on_error.
  intros Hm Hf h r evs pre req post resp Hrun Hevs Hreply Herr.
  apply bind_inv in Hrun as [(e & Hrun & ->) | (a & evs1 & evs2 & Hrun & Hk & ->)].
  { specialize (Hm h _ _ pre req post resp Hrun Hevs Hreply Herr).
    destruct (_ && _); [done |]. by destruct Hm as [[= ->] ->]. }
  apply app_eq_inv in Hevs as [(k & -> & Hk2) | (k & -> & ->)].
  - destruct k as [| ev k]; simpl in Hk2.
    + subst evs2. rewrite app_nil_r in Hk.
      eapply (Hf a _ _ _ []); eauto. by rewrite app_nil_r.
    + injection Hk2 as <- ->.
      specialize (Hm h (Ok a) _ pre req k resp Hrun eq_refl Hreply Herr).
      destruct (_ && _); [| by destruct Hm].
      destruct Hm as [post' ->]. by exists (post' ++ evs2).
  - eapply (Hf a _ _ _ k); eauto. by rewrite <- (assoc_L (++)).
Qed.

Lemma stops_on_error_no_request w {A} (m : M A) :
  (forall h r evs, m h = (r, evs) -> requests_of evs = []) ->
  stops_on_error w m.
Proof.
  intros Hm h r evs pre req post resp Hrun -> _ _.
  apply Hm in Hrun. rewrite requests_of_app in Hrun.
  by apply app_nil in Hrun as [_ [=]].
Qed.

Lemma stops_on_error_print w s : stops_on_error w (print s).
Proof. apply stops_on_error_no_request. by intros h r evs [= <- <-]. Qed.

Lemma raise_for_status_error {B} resp (f : unit -> M B) h :
  is_error_status (status_code resp) = true ->
  (raise_for_status resp ≫= f) h = (Raise (HTTPError (status_code resp)), []).
Proof.
  intros Herr. apply bind_raise. unfold raise_for_status. by rewrite Herr.
Qed.

(** A request whose response is checked by what follows. *)
Lemma stops_on_error_call w {A} m url headers (k : response -> M A) :
  let req := {| req_method := m; req_url := url; req_headers := headers |} in
  (forall resp, stops_on_error w (k resp)) ->
  (forall resp h,
     is_error_status (status_code resp) = true ->
     if is_release_lookup req && (status_code resp =? 404)
     then exists r evs, k resp h = (r, Print "...already gone" :: evs)
     else k resp h = (Raise (HTTPError (status_code resp)), [])) ->
  stops_on_error w (requests_call w m url headers ≫= k).
Proof.
  intros req0 Hk Hcheck h r evs pre req post resp Hrun Hevs Hreply Herr.
  subst req0.
  apply bind_inv in Hrun as [(e & Hrun & ->) | (a & evs1 & evs2 & Hrun & Hrest & ->)];
    unfold requests_call in Hrun.
  - destruct (remote w (requests_of h) _) eqn:Hremote; [| done].
    injection Hrun as <- <-.
    destruct pre as [| ev [| ev' pre]]; [| done | done].
    injection Hevs as <- <-. rewrite app_nil_r in Hreply. congruence.
  - destruct (remote w (requests_of h) _) as [| resp0] eqn:Hremote; [done |].
    injection Hrun as <- <-.
    destruct pre as [| ev pre]; simpl in Hevs.
    + injection Hevs as <- <-. rewrite app_nil_r in Hreply.
      rewrite Hremote in Hreply. injection Hreply as ->.
      specialize (Hcheck resp
        (h ++ [Request {| req_method := m; req_url := url;
                          req_headers := headers |}]) Herr).
      destruct (_ && _).
      * destruct Hcheck as (r' & evs' & Hcheck). rewrite Hcheck in Hrest.
        injection Hrest as <- <-. eauto.
      * rewrite Hcheck in Hrest. by injection Hrest as <- <-.
    + injection Hevs as <- ->.
      eapply (Hk resp0 _ _ _ pre); eauto.
      by rewrite <- (assoc_L (++)).
Qed.

Lemma release_lookup_tag_url record headers :
  is_release_lookup {| req_method := GET; req_url := release_tag_url record;
                       req_headers := headers |} = true.
Proof. by vm_compute. Qed.

Lemma release_lookup_versions_url container_org container_name headers :
  is_release_lookup {| req_method := GET;
                       req_url := versions_url container_org container_name;
                       req_headers := headers |} = false.
Proof. by vm_compute. Qed.

Lemma stops_on_error_delete_release w headers record :
  stops_on_error w (delete_release w headers record).
Proof.
  unfold delete_release.
  apply stops_on_error_bind; [apply stops_on_error_print | intros _].
  apply stops_on_error_call.
  - intros resp. destruct (status_code resp =? 404);
      [apply stops_on_error_print |].
    apply stops_on_error_bind;
      [apply stops_on_error_silent, silent_raise_for_status | intros _].
    apply stops_on_error_bind;
      [apply stops_on_error_silent, silent_release_id | intros id].
    apply stops_on_error_call.
    + intros resp'. apply stops_on_error_silent, silent_raise_for_status.
    + intros resp' h Herr. simpl. unfold raise_for_status. by rewrite Herr.
  - intros resp h Herr. rewrite release_lookup_tag_url. simpl.
    destruct (status_code resp =? 404); [by eexists _, _ |].
    by apply raise_for_status_error.
Qed.

Lemma stops_on_error_for_each w {A} (l : list A) (body : A -> M unit) :
  (forall x, stops_on_error w (body x)) -> stops_on_error w (for_each l body).
Proof.
  intros Hbody. induction l as [| x l IH]; simpl.
  - apply stops_on_error_silent, silent_ret.
  - apply stops_on_error_bind; [apply Hbody | by intros _].
Qed.

Lemma stops_on_error_update_records w headers records :
  stops_on_error w (update_records w headers records).
Proof.
  unfold update_records. apply stops_on_error_bind.
  - apply stops_on_error_for_each, stops_on_error_delete_release.
  - intros _. apply stops_on_error_silent, silent_ret.
Qed.

Lemma stops_on_error_container_versions w headers container_images container :
  stops_on_error w (container_versions w headers container_images container).
Proof.
  unfold container_versions.
  destruct (split "/" container) as [| container_org [| container_name [|]]];
    try apply stops_on_error_silent, silent_raise.
  apply stops_on_error_call.
  - intros resp. apply stops_on_error_silent. silent_steps.
  - intros resp h Herr. rewrite release_lookup_versions_url. simpl.
    by apply raise_for_status_error.
Qed.

Lemma stops_on_error_get_container_images w headers :
  stops_on_error w (get_container_images w headers).
Proof.
  unfold get_container_images. generalize (∅ : gmap string string).
  induction CONTAINERS as [| container containers IH]; intros container_images;
    simpl.
  - apply stops_on_error_silent, silent_ret.
  - apply stops_on_error_bind;
      [apply stops_on_error_container_versions | intros ?; apply IH].
Qed.

Lemma write_html_no_request a container_images rows h r evs :
  write_html a container_images rows h = (r, evs) -> requests_of evs = [].
Proof.
  unfold write_html, mbind, M_bind, emit, lift.
  destruct (template _ _ _); simpl; by intros [= <- <-].
Qed.

Lemma write_json_no_request w records h r evs :
  write_json w records h = (r, evs) -> requests_of evs = [].
Proof. unfold write_json, mbind, M_bind, emit. simpl. by intros [= <- <-]. Qed.

Lemma stops_on_error_main parse w : stops_on_error w (main parse w).
Proof.
  unfold main.
  apply stops_on_error_bind;
    [apply stops_on_error_silent, silent_os_environ | intros token].
  apply stops_on_error_bind;
    [apply stops_on_error_silent, silent_load_records | intros loaded].
  apply stops_on_error_bind;
    [apply stops_on_error_silent, silent_build_new_record | intros records].
  apply stops_on_error_bind;
    [apply stops_on_error_update_records | intros kept].
  apply stops_on_error_bind;
    [apply stops_on_error_get_container_images | intros container_images].
  apply stops_on_error_bind.
  - apply stops_on_error_no_request, write_html_no_request.
  - intros _. apply stops_on_error_no_request, write_json_no_request.
Qed.

(** ** The steps that talk to the remote *)

Lemma talks_silent {A} (m : M A) : silent m -> talks m.
Proof. intros Hm h r evs [-> _]%(silent_inv _ _ _ _ Hm). constructor. Qed.

Lemma talks_bind {A B} (m : M A) (f : A -> M B) :
  talks m -> (forall a, talks (f a)) -> talks (m ≫= f).
Proof.
  intros Hm Hf h r evs
    [(e & Hrun & ->) | (a & evs1 & evs2 & Hrun & Hk & ->)]%bind_inv.
  - by eapply Hm.
  - apply Forall_app. split; [by eapply Hm | by eapply Hf].
Qed.

Lemma talks_print s : talks (print s).
Proof. intros h r evs [= <- <-]. by repeat constructor. Qed.

Lemma talks_requests_call w m url headers : talks (requests_call w m url headers).
Proof.
  intros h r evs. unfold requests_call.
  destruct (remote w _ _); intros [= <- <-]; by repeat constructor.
Qed.

Lemma talks_for_each {A} (l : list A) (body : A -> M unit) :
  (forall x, talks (body x)) -> talks (for_each l body).
Proof.
  intros Hbody. induction l as [| x l IH]; simpl.
  - apply talks_silent, silent_ret.
  - apply talks_bind; [apply Hbody | by intros _].
Qed.

Lemma talks_delete_release w headers record :
  talks (delete_release w headers record).
Proof.
  unfold delete_release.
  apply talks_bind; [apply talks_print | intros _].
  apply talks_bind; [apply talks_requests_call | intros resp].
  destruct (status_code resp =? 404); [apply talks_print |].
  apply talks_bind; [apply talks_silent, silent_raise_for_status | intros _].
  apply talks_bind; [apply talks_silent, silent_release_id | intros id].
  apply talks_bind; [apply talks_requests_call | intros resp'].
  apply talks_silent, silent_raise_for_status.
Qed.

Lemma talks_update_records w headers records :
  talks (update_records w headers records).
Proof.
  unfold update_records. apply talks_bind.
  - apply talks_for_each, talks_delete_release.
  - intros _. apply talks_silent, silent_ret.
Qed.

Lemma talks_get_container_images w headers :
  talks (get_container_images w headers).
Proof.
  unfold get_container_images. generalize (∅ : gmap string string).
  induction CONTAINERS as [| container containers IH]; intros container_images;
    simpl.
  { apply talks_silent, silent_ret. }
  apply talks_bind; [| intros ?; apply IH].
  unfold container_versions.
  destruct (split "/" container) as [| container_org [| container_name [|]]];
    try apply talks_silent, silent_raise.
  apply talks_bind; [apply talks_requests_call | intros resp].
  apply talks_silent. silent_steps.
Qed.

Lemma talk_no_write (evs : list event) :
  Forall talk evs ->
  persisted evs = [] /\ forall name, written name evs = [].
Proof.
  induction 1 as [| ev evs Hev _ [IH1 IH2]]; [done |].
  destruct ev; try done; simpl in *; by rewrite ?IH1, ?IH2.
Qed.

(** ** The loop over the expired records *)

Lemma requests_of_print h s : requests_of (h ++ [Print s]) = requests_of h.
Proof. rewrite requests_of_app. simpl. apply app_nil_r. Qed.

Lemma delete_release_unfold w headers record h :
  delete_release w headers record h
  = match remote w (requests_of h) (lookup_request headers record) with
    | NoReply => (Raise RequestException, looked_up headers record)
    | Reply resp =>
        if status_code resp =? 404 then (Ok tt, found_gone headers record)
        else if is_error_status (status_code resp)
        then (Raise (HTTPError (status_code resp)), looked_up headers record)
        else
          match resp_body resp with
          | ReleaseBody id =>
              match remote w (requests_of h ++ [lookup_request headers record])
                      (delete_request headers id) with
              | NoReply => (Raise RequestException, deleted headers record id)
              | Reply resp' =>
                  if is_error_status (status_code resp')
                  then (Raise (HTTPError (status_code resp')),
                        deleted headers record id)
                  else (Ok tt, deleted headers record id)
              end
          | _ => (Raise TypeError, looked_up headers record)
          end
    end.
Proof.
  unfold delete_release, print, emit, requests_get, requests_delete,
    requests_call, raise_for_status, release_id, found_gone, deleted, looked_up,
    lookup_request, delete_request.
  unfold mbind, M_bind. rewrite requests_of_print.
  destruct (remote w (requests_of h) _) as [| resp]; [done |].
  destruct (status_code resp =? 404); [done |].
  destruct (is_error_status (status_code resp)); simpl; [done |].
  destruct (resp_body resp) as [id | |]; simpl; [| done | done].
  rewrite !app_nil_r, requests_of_app, requests_of_print.
  change (requests_of [Request ?r]) with [r].
  destruct (remote w _ _) as [| resp']; [done |].
  by destruct (is_error_status (status_code resp')).
Qed.

Lemma for_each_delete_release_ok w headers expired h evs :
  for_each expired (delete_release w headers) h = (Ok tt, evs) <->
  prune_run w headers h expired evs.
Proof.
  split.
  - revert h evs. induction expired as [| record expired IH]; intros h evs; simpl.
    { intros [= <-]. constructor. }
    intros [(e & _ & [=]) | ([] & evs1 & evs2 & Hrec & Hrest & ->)]%bind_inv.
    rewrite delete_release_unfold in Hrec.
    destruct (remote w (requests_of h) _) as [| resp] eqn:Hreply; [done |].
    destruct (Z.eqb_spec (status_code resp) 404) as [H404 | H404].
    { injection Hrec as <-. eapply prune_gone; eauto. }
    destruct (is_error_status (status_code resp)) eqn:Herr; [done |].
    destruct (resp_body resp) as [id | |] eqn:Hbody; [| done | done].
    destruct (remote w _ (delete_request headers id)) as [| resp'] eqn:Hreply';
      [done |].
    destruct (is_error_status (status_code resp')) eqn:Herr'; [done |].
    injection Hrec as <-. eapply prune_deleted; eauto.
  - induction 1 as [| h record resp expired evs Hreply H404 _ IH
                    | h record resp id resp' expired evs
                        Hreply H404 Herr Hbody Hreply' Herr' _ IH]; [done | |];
      cbn [for_each]; (eapply bind_ok; [| exact IH]);
      rewrite delete_release_unfold, Hreply.
    + by rewrite H404.
    + destruct (Z.eqb_spec (status_code resp) 404); [done |].
      by rewrite Herr, Hbody, Hreply', Herr'.
Qed.

Lemma urls_of_app m evs1 evs2 :
  urls_of m (evs1 ++ evs2) = urls_of m evs1 ++ urls_of m evs2.
Proof. apply omap_app. Qed.

Lemma prune_run_lookups w headers h expired evs :
  prune_run w headers h expired evs ->
  urls_of GET evs = release_tag_url <$> expired.
Proof.
  induction 1 as [| h record resp expired evs _ _ _ IH
                  | h record resp id resp' expired evs _ _ _ _ _ _ _ IH];
    [done | |]; by rewrite urls_of_app, IH.
Qed.

Lemma prune_run_deletes w headers h expired evs :
  prune_run w headers h expired evs ->
  (length (urls_of DELETE evs) <= length expired)%nat.
Proof.
  induction 1 as [| h record resp expired evs _ _ _ IH
                  | h record resp id resp' expired evs _ _ _ _ _ _ _ IH];
    [done | |]; rewrite urls_of_app, length_app; simpl; lia.
Qed.

(** ** Rows *)

Lemma generate_rows_foldl rows prev_record records :
  (foldl (fun '(rows, prev_record) record =>
            (rows ++ [make_row prev_record record], Some record))
         (rows, prev_record) records).1
  = rows ++ (uncurry make_row <$> zip (prev_record :: (Some <$> records)) records).
Proof.
  revert rows prev_record.
  induction records as [| record records IH]; intros rows prev_record; simpl.
  - by rewrite app_nil_r.
  - rewrite IH. by rewrite <- (assoc_L (++)).
Qed.

Lemma generate_rows_zip records :
  generate_rows records
  = uncurry make_row <$> zip (None :: (Some <$> records)) records.
Proof. unfold generate_rows. by rewrite generate_rows_foldl. Qed.

Lemma generate_rows_pkgver records :
  row_pkgver <$> generate_rows records = pkgver <$> records.
Proof.
  rewrite generate_rows_zip. generalize (@None build).
  induction records as [| record records IH]; intros prev_record; simpl; [done |].
  f_equal. apply IH.
Qed.

Lemma generate_rows_date records :
  row_date <$> generate_rows records = date <$> records.
Proof.
  rewrite generate_rows_zip. generalize (@None build).
  induction records as [| record records IH]; intros prev_record; simpl; [done |].
  f_equal. apply IH.
Qed.

Lemma template_rows_ok container_images rows table :
  template_rows container_images rows = Ok table ->
  exists texts,
    Forall2 (fun r text => template_row container_images r = Ok text) rows texts /\
    table = cat texts.
Proof.
  revert table. induction rows as [| r rows IH]; intros table; simpl.
  - intros [= <-]. exists []. by split; [constructor |].
  - unfold mbind, result_bind.
    destruct (template_row container_images r) as [text |] eqn:Hrow; [| done].
    destruct (template_rows container_images rows) as [table' |]; [| done].
    intros [= <-]. destruct (IH _ eq_refl) as (texts & Htexts & ->).
    exists (text :: texts). by split; [constructor |].
Qed.

Lemma template_ok container_images retain rows html :
  template container_images retain rows = Ok html ->
  exists texts,
    Forall2 (fun r text => template_row container_images r = Ok text) rows texts /\
    html = template_head retain +:+ cat texts +:+ template_tail.
Proof.
  unfold template, mbind, result_bind.
  destruct (template_rows container_images rows) as [table |] eqn:Hrows; [| done].
  intros [= <-]. apply template_rows_ok in Hrows as (texts & Htexts & ->). eauto.
Qed.

(** ** What a run writes *)

Lemma run_ok_inv parse w log :
  run parse w = (Ok tt, log) ->
  exists token records evs1 evs2 container_images html,
    environ w !! "GITHUB_TOKEN" = Some token /\
    collect_records parse w [] = (Ok records, []) /\
    update_records w (make_headers token) records []
      = (Ok (slice_from (- RETAIN) records), evs1) /\
    get_container_images w (make_headers token) evs1 = (Ok container_images, evs2) /\
    template container_images RETAIN
      (reverse (generate_rows (slice_from (- RETAIN) records))) = Ok html /\
    log = evs1 ++ evs2 ++ html_events w html
            ++ json_events w (slice_from (- RETAIN) records).
Proof.
  intros Hrun. pose proof (run_has_shape parse w) as Hshape.
  rewrite Hrun in Hshape. unfold run_shape in Hshape. simpl in Hshape.
  pose proof (silent_collect_records parse w []) as Hsilent.
  destruct (collect_records parse w []) as [[records | e] evs0] eqn:Hrecords;
    simpl in Hsilent; injection Hsilent as ->; [| by destruct Hshape].
  destruct Hshape as (token & Htoken & Hshape).
  destruct (update_records w (make_headers token) records [])
    as [[kept | e] evs1] eqn:Hupd; [| by destruct Hshape].
  destruct Hshape as [-> Hshape].
  destruct (get_container_images w (make_headers token) evs1)
    as [[container_images | e] evs2] eqn:Himg; [| by destruct Hshape].
  destruct (template container_images RETAIN _) as [html | e] eqn:Hhtml;
    [| by destruct Hshape].
  destruct Hshape as [_ ->].
  by exists token, records, evs1, evs2, container_images, html.
Qed.

Lemma persisted_app evs1 evs2 :
  persisted (evs1 ++ evs2) = persisted evs1 ++ persisted evs2.
Proof. apply omap_app. Qed.

Lemma written_app name evs1 evs2 :
  written name (evs1 ++ evs2) = written name evs1 ++ written name evs2.
Proof. apply omap_app. Qed.

(** The state file is written at most once, at the end of a run that
    succeeds, and holds the records that were kept. *)
Lemma persisted_run parse w :
  persisted (run parse w).2
  = match collect_records parse w [], (run parse w).1 with
    | (Ok records, _), Ok _ => [slice_from (- RETAIN) records]
    | _, _ => []
    end.
Proof.
  pose proof (run_has_shape parse w) as Hshape. unfold run_shape in Hshape.
  destruct (collect_records parse w []) as [[records | e] evs0].
  2: { by destruct Hshape as [_ ->]. }
  destruct Hshape as (token & Htoken & Hshape).
  destruct (update_records w (make_headers token) records [])
    as [[kept | e] evs1] eqn:Hupd.
  2: { destruct Hshape as [Hr Hlog]. rewrite Hr, Hlog.
       by apply talks_update_records, talk_no_write in Hupd as [-> _]. }
  destruct Hshape as [-> Hshape].
  apply talks_update_records, talk_no_write in Hupd as [Hupd _].
  destruct (get_container_images w (make_headers token) evs1)
    as [[container_images | e] evs2] eqn:Himg.
  2: { destruct Hshape as [Hr Hlog]. rewrite Hr, Hlog.
       apply talks_get_container_images, talk_no_write in Himg as [Himg _].
       by rewrite persisted_app, Hupd, Himg. }
  apply talks_get_container_images, talk_no_write in Himg as [Himg _].
  destruct (template container_images RETAIN _) as [html | e];
    destruct Hshape as [Hr Hlog]; rewrite Hr, Hlog;
    by rewrite !persisted_app, Hupd, Himg.
Qed.

Lemma elem_of_persisted log p builds t :
  Write p (JsonDoc builds t) ∈ log -> builds ∈ persisted log.
Proof.
  intros Hin. unfold persisted. apply list_elem_of_omap.
  by exists (Write p (JsonDoc builds t)).
Qed.

Lemma completely_specified_negb a :
  negb (truthy (arg_linux_builder a)) || negb (truthy (arg_windows_builder a))
    || negb (truthy (arg_openslide a)) || negb (truthy (arg_java a))
    || negb (truthy (arg_winbuild a))
  = negb (completely_specified a).
Proof.
  unfold completely_specified.
  by destruct (truthy (arg_linux_builder a)), (truthy (arg_windows_builder a)),
    (truthy (arg_openslide a)), (truthy (arg_java a)), (truthy (arg_winbuild a)).
Qed.

Lemma build_new_record_ok parse a loaded h records evs :
  build_new_record parse a loaded h = (Ok records, evs) ->
  truthy (arg_pkgver a) = false /\ records = loaded \/
  truthy (arg_pkgver a) = true /\ completely_specified a = true /\
    exists d,
      parse (hd EmptyString (split "-" (value (arg_pkgver a)))) = Some d /\
      records = loaded ++ [new_record a d].
Proof.
  unfold build_new_record. rewrite completely_specified_negb.
  destruct (truthy (arg_pkgver a)); [| intros [= <- _]; by left].
  destruct (completely_specified a); simpl; [| done].
  destruct (parse _) as [d |]; [| done].
  intros [= <- _]. right. eauto.
Qed.


Lemma written_html_events w html kept :
  written HTML (html_events w html ++ json_events w kept) = [Text html; Text nl].
Proof. done. Qed.

Lemma written_json_events w html kept :
  written JSON (html_events w html ++ json_events w kept)
  = [JsonDoc kept (now w); Text nl].
Proof. done. Qed.

(** * The claims *)

(** C1. Whatever list of records the first steps produce (the records
    loaded from the state file, followed by the new record if there is
    one), the list that the update step keeps has at most [RETAIN] = 30
    elements and consists of the last elements of that list; it is the
    list that the update step returns, and the only list a run writes to
    the state file. *)
Theorem retention_limit parse w records :
  collect_records parse w [] = (Ok records, []) ->
  let kept := slice_from (- RETAIN) records in
  Z.of_nat (length kept) <= RETAIN /\
  length kept = (length records `min` 30)%nat /\
  kept = drop (length records - 30)%nat records /\
  (forall headers h kept' evs,
     update_records w headers records h = (Ok kept', evs) -> kept' = kept) /\
  (forall p builds t,
     Write p (JsonDoc builds t) ∈ (run parse w).2 -> builds = kept).
Proof.
  intros Hrecords kept. subst kept.
  pose proof (length_slice_from_RETAIN records) as Hlen.
  split; [unfold RETAIN in *; lia |]. split; [done |].
  split; [apply slice_from_RETAIN |]. split.
  - intros headers h kept' evs Hupd. by eapply update_records_kept.
  - intros p builds t Hin%elem_of_persisted.
    rewrite persisted_run, Hrecords in Hin.
    destruct (run parse w).1; [| by apply elem_of_nil in Hin].
    by apply list_elem_of_singleton in Hin.
Qed.

(** C3. When reading the state file raises [IOError], the load step
    yields the empty list of records without raising, and the whole run is
    the run on an empty state file. *)
Theorem missing_state_file parse w :
  state_file w = Raise IOError ->
  load_records w [] = (Ok [], []) /\
  run parse w = run parse (with_state_file w (Ok [])).
Proof.
  intros Hfile. split.
  - unfold load_records, try_except, lift. by rewrite Hfile.
  - unfold run, main, load_records. simpl. by rewrite Hfile.
Qed.

(** C7. The records stay in the order in which they were appended: the
    load step yields the stored list as it is, the new record (at most
    one) goes to the end, and the list written to the state file is a
    suffix of the result, so its records are in the same relative order. *)
Theorem append_order_kept parse w loaded p builds t :
  load_records w [] = (Ok loaded, []) ->
  Write p (JsonDoc builds t) ∈ (run parse w).2 ->
  (forall stored, state_file w = Ok stored -> loaded = stored) /\
  exists appended dropped,
    (length appended <= 1)%nat /\
    collect_records parse w [] = (Ok (loaded ++ appended), []) /\
    loaded ++ appended = dropped ++ builds /\
    builds `suffix_of` loaded ++ appended /\
    builds `sublist_of` loaded ++ appended.
Proof.
  intros Hload Hin%elem_of_persisted. split.
  { intros stored Hfile. revert Hload. unfold load_records, try_except, lift.
    rewrite Hfile. by intros [= <-]. }
  rewrite persisted_run in Hin.
  pose proof (silent_collect_records parse w []) as Hsilent.
  destruct (collect_records parse w []) as [[records | e] evs0] eqn:Hrecords;
    simpl in Hsilent; injection Hsilent as ->; [| by apply elem_of_nil in Hin].
  destruct (run parse w).1; [| by apply elem_of_nil in Hin].
  apply list_elem_of_singleton in Hin as ->.
  destruct (collect_records_inv _ _ _ Hrecords)
    as (token & loaded' & _ & Hfile & Hnew).
  assert (loaded' = loaded) as ->.
  { revert Hload. unfold load_records, try_except, lift.
    destruct Hfile as [-> | [-> ->]]; by intros [= <-]. }
  assert (exists appended,
            (length appended <= 1)%nat /\ records = loaded ++ appended)
    as (appended & Hlen & ->).
  { apply build_new_record_ok in Hnew as [[_ ->] | (_ & _ & d & _ & ->)].
    - exists []. split; [simpl; lia | by rewrite app_nil_r].
    - exists [new_record (args w) d]. split; [simpl; lia | done]. }
  exists appended, (slice_to (- RETAIN) (loaded ++ appended)).
  split; [done |]. split; [done |].
  split; [by rewrite slice_RETAIN_app |].
  rewrite slice_from_RETAIN.
  split; [apply suffix_drop | apply sublist_drop].
Qed.

(** C8. A run that succeeds went through the steps in order: the records
    were loaded and the new one appended; the update step pruned and kept
    the newest; the container images were fetched; the page was rendered
    from the kept records and written; and the state file was written
    last, with exactly the kept records under ['builds'], the record
    appended in this run among them. *)
Theorem linear_procedure parse w log :
  run parse w = (Ok tt, log) ->
  exists token records evs1 evs2 container_images html,
    let kept := slice_from (- RETAIN) records in
    let headers := make_headers token in
    environ w !! "GITHUB_TOKEN" = Some token /\
    collect_records parse w [] = (Ok records, []) /\
    update_records w headers records [] = (Ok kept, evs1) /\
    get_container_images w headers evs1 = (Ok container_images, evs2) /\
    template container_images RETAIN (reverse (generate_rows kept)) = Ok html /\
    log = evs1 ++ evs2 ++ html_events w html ++ json_events w kept /\
    Forall talk (evs1 ++ evs2) /\
    written JSON log = [JsonDoc kept (now w); Text nl] /\
    persisted log = [kept] /\
    last kept = last records /\
    (truthy (arg_pkgver (args w)) = true ->
     exists d, last kept = Some (new_record (args w) d)).
Proof.
  intros Hrun.
  destruct (run_ok_inv _ _ _ Hrun)
    as (token & records & evs1 & evs2 & container_images & html
        & Htoken & Hrecords & Hupd & Himg & Hhtml & ->).
  exists token, records, evs1, evs2, container_images, html. simpl.
  pose proof (talks_update_records _ _ _ _ _ _ Hupd) as Htalk1.
  pose proof (talks_get_container_images _ _ _ _ _ Himg) as Htalk2.
  destruct (talk_no_write _ Htalk1) as [Hp1 Hw1].
  destruct (talk_no_write _ Htalk2) as [Hp2 Hw2].
  repeat (split; [done |]).
  split; [by apply Forall_app |].
  split; [by rewrite !written_app, Hw1, Hw2 |].
  split; [by rewrite !persisted_app, Hp1, Hp2 |].
  split; [apply last_slice_from_RETAIN |].
  intros Hpkgver. rewrite last_slice_from_RETAIN.
  destruct (collect_records_inv _ _ _ Hrecords)
    as (_ & loaded & _ & _ & Hnew).
  apply build_new_record_ok in Hnew as [[Hno _] | (_ & _ & d & _ & ->)];
    [congruence |].
  exists d. apply last_snoc.
Qed.

(** C10. In the page a run writes, the table has one row per record that
    the run persists, and the rows are in the reverse of the stored
    order: the text of the table is the rendering of the last record,
    then of the one before it, and so on to the first, each rendered
    against the record stored before it. *)
Theorem table_newest_first parse w log :
  run parse w = (Ok tt, log) ->
  exists builds container_images texts,
    persisted log = [builds] /\
    written HTML log
    = [Text (template_head RETAIN +:+ cat texts +:+ template_tail); Text nl] /\
    Forall2
      (fun '(prev_record, record) text =>
         template_row container_images (make_row prev_record record) = Ok text)
      (reverse (zip (None :: (Some <$> builds)) builds)) texts /\
    row_pkgver <$> reverse (generate_rows builds) = reverse (pkgver <$> builds) /\
    row_date <$> reverse (generate_rows builds) = reverse (date <$> builds).
Proof.
  intros Hrun.
  destruct (run_ok_inv _ _ _ Hrun)
    as (token & records & evs1 & evs2 & container_images & html
        & Htoken & Hrecords & Hupd & Himg & Hhtml & ->).
  destruct (talk_no_write _ (talks_update_records _ _ _ _ _ _ Hupd)) as [Hp1 Hw1].
  destruct (talk_no_write _ (talks_get_container_images _ _ _ _ _ Himg))
    as [Hp2 Hw2].
  apply template_ok in Hhtml as (texts & Htexts & ->).
  exists (slice_from (- RETAIN) records), container_images, texts.
  split; [by rewrite !persisted_app, Hp1, Hp2 |].
  split; [by rewrite !written_app, Hw1, Hw2 |].
  split.
  - rewrite generate_rows_zip, <- fmap_reverse in Htexts.
    apply Forall2_fmap_l in Htexts.
    eapply Forall2_impl; [exact Htexts |]. by intros [prev_record record] text.
  - by rewrite !fmap_reverse, generate_rows_pkgver, generate_rows_date.
Qed.


(** C4, as amended. When [--pkgver] is given and not empty, the five other
    options of a build are given and not empty, and the date parser reads
    a date [d] from the part of the package version before its first
    ['-'], the step appends exactly one record to the end of the loaded
    list; the record carries the package version, the date [d], both
    builder references and the three commit IDs. When [--pkgver] is not
    given, or empty, the step yields the loaded list as it is. The step
    emits no event. *)
Theorem new_record_appended parse a d records h :
  (truthy (arg_pkgver a) = true ->
   completely_specified a = true /\
   parse (hd EmptyString (split "-" (value (arg_pkgver a)))) = Some d) ->
  build_new_record parse a records h
  = (Ok (records ++ if truthy (arg_pkgver a) then [new_record a d] else []), [])
  /\
  (forall v lb wb o j wbd,
     arg_pkgver a = Some v -> arg_linux_builder a = Some lb ->
     arg_windows_builder a = Some wb -> arg_openslide a = Some o ->
     arg_java a = Some j -> arg_winbuild a = Some wbd ->
     new_record a d
     = {| pkgver := v; date := d; linux_builder := lb; windows_builder := wb;
          openslide := o; openslide_java := j; openslide_winbuild := wbd;
          win32 := None |}).
Proof.
  intros Hgiven. split.
  - unfold build_new_record. rewrite completely_specified_negb.
    destruct (truthy (arg_pkgver a)); [| by rewrite app_nil_r].
    destruct (Hgiven eq_refl) as [-> ->]. done.
  - intros v lb wb o j wbd Hv Hlb Hwb Ho Hj Hwbd. unfold new_record.
    by rewrite Hv, Hlb, Hwb, Ho, Hj, Hwbd.
Qed.

(** C5, as amended. The update step, when it runs to its end, has gone
    through exactly the expired records, that is the records before the
    newest [RETAIN] = 30, in order: for each of them it has looked up the
    release tagged [windows-<pkgver>] and, unless the answer was [404],
    deleted the release the answer names. It has made no other request;
    the newest 30 records are the ones it returns. *)
Theorem prune_expired w headers records h kept evs :
  update_records w headers records h = (Ok kept, evs) ->
  let expired := take (length records - 30)%nat records in
  prune_run w headers h expired evs /\
  urls_of GET evs = release_tag_url <$> expired /\
  (length (urls_of DELETE evs) <= length expired)%nat /\
  kept = drop (length records - 30)%nat records /\
  expired ++ kept = records.
Proof.
  intros Hupd expired. subst expired. unfold update_records in Hupd.
  apply bind_inv in Hupd
    as [(e & _ & [=]) | ([] & evs1 & evs2 & Hloop & [= <- <-] & ->)].
  rewrite app_nil_r. rewrite slice_to_RETAIN in Hloop.
  apply for_each_delete_release_ok in Hloop.
  split; [done |]. split; [by eapply prune_run_lookups |].
  split; [by eapply prune_run_deletes |].
  split; [apply slice_from_RETAIN |].
  rewrite slice_from_RETAIN. apply take_drop.
Qed.

(** The other direction: on a remote that answers the lookups and the
    deletions as [prune_run] says, the update step runs to its end. *)
Lemma prune_run_complete w headers records h evs :
  prune_run w headers h (take (length records - 30)%nat records) evs ->
  update_records w headers records h
  = (Ok (drop (length records - 30)%nat records), evs).
Proof.
  intros Hloop%for_each_delete_release_ok. unfold update_records.
  rewrite slice_to_RETAIN, slice_from_RETAIN.
  erewrite bind_ok; [| exact Hloop | reflexivity]. by rewrite app_nil_r.
Qed.

(** C6, as amended. A response with an error status (400 to 599) to a
    request of a run ends the run: the run raises [HTTPError] with that
    status and does nothing after the request. The one exception is a
    [404] in answer to the lookup of a release: the run prints that the
    release is gone and goes on. *)
Theorem error_status_raises parse w pre req post resp :
  (run parse w).2 = pre ++ Request req :: post ->
  remote w (requests_of pre) req = Reply resp ->
  is_error_status (status_code resp) = true ->
  if is_release_lookup req && (status_code resp =? 404)
  then exists post', post = Print "...already gone" :: post'
  else (run parse w).1 = Raise (HTTPError (status_code resp)) /\ post = [].
Proof.
  intros Hlog Hreply Herr.
  eapply (stops_on_error_main parse w [] _ _ pre req post resp); eauto.
  unfold run. apply surjective_pairing.
Qed.

(** C9, as amended. When [--pkgver] is given and not empty but one of the
    five other options of a build is missing or empty, the run raises
    before it has done anything: it has emitted no event, so no request
    and no file. The exception is the exit of the argument parser when
    the token is set and the state file could be loaded (or was missing);
    otherwise it is the exception of the earlier step. *)
Theorem incomplete_build_rejected parse w :
  truthy (arg_pkgver (args w)) = true ->
  completely_specified (args w) = false ->
  (run parse w).2 = [] /\
  exists e,
    (run parse w).1 = Raise e /\
    (forall token loaded,
       environ w !! "GITHUB_TOKEN" = Some token ->
       load_records w [] = (Ok loaded, []) ->
       e = SystemExit 2).
Proof.
  intros Hpkgver Hspec.
  pose proof (run_has_shape parse w) as Hshape. unfold run_shape in Hshape.
  assert (exists e,
    collect_records parse w [] = (Raise e, []) /\
    forall token loaded,
      environ w !! "GITHUB_TOKEN" = Some token ->
      load_records w [] = (Ok loaded, []) -> e = SystemExit 2)
    as (e & Hrecords & He).
  { unfold collect_records, os_environ.
    destruct (environ w !! "GITHUB_TOKEN") as [token |]; [| by eexists].
    destruct (load_records w []) as [[loaded | e] evs] eqn:Hload;
      apply (silent_inv _ _ _ _ (silent_load_records w)) in Hload as [-> Hload].
    - exists (SystemExit 2). split; [| done].
      unfold mbind, M_bind. simpl. rewrite Hload. simpl.
      unfold build_new_record.
      by rewrite Hpkgver, completely_specified_negb, Hspec.
    - exists e. split; [| done].
      unfold mbind, M_bind. simpl. by rewrite Hload. }
  rewrite Hrecords in Hshape. destruct Hshape as [Hr Hlog]. eauto.
Qed.

(** * The claims on sample runs *)

Lemma sample_collect_records :
  collect_records compact_date (sample_world 31 (github [sample_image])) []
  = (Ok (sample_records), []).
Proof. vm_compute. reflexivity. Defined.

Lemma sample_persisted :
  (run compact_date (sample_world 31 (github [sample_image]))).2 !! 12%nat
  = Some (Write (PathDiv "docs" JSON)
            (JsonDoc (drop 2 sample_records)
                     1700000000)).
Proof. vm_compute. reflexivity. Defined.

Lemma retention_limit_witness :
  let w := sample_world 31 (github [sample_image]) in
  let records := sample_records in
  let kept := slice_from (- RETAIN) records in
  Z.of_nat (length kept) <= RETAIN /\
  length kept = (length records `min` 30)%nat /\
  kept = drop (length records - 30)%nat records /\
  (forall headers h kept' evs,
     update_records w headers records h = (Ok kept', evs) -> kept' = kept) /\
  (forall p builds t,
     Write p (JsonDoc builds t) ∈ (run compact_date w).2 -> builds = kept).
Proof.
  intros w records.
  exact (retention_limit compact_date w records sample_collect_records).
Defined.

Lemma missing_state_file_witness :
  load_records first_run [] = (Ok [], []) /\
  run compact_date first_run
  = run compact_date (with_state_file first_run (Ok [])).
Proof.
  apply (missing_state_file compact_date first_run).
  vm_compute. reflexivity.
Defined.

Lemma append_order_kept_witness :
  let w := sample_world 31 (github [sample_image]) in
  let loaded := nightly <$> seqZ 1 31 in
  let builds := drop 2 sample_records in
  (forall stored, state_file w = Ok stored -> loaded = stored) /\
  exists appended dropped,
    (length appended <= 1)%nat /\
    collect_records compact_date w [] = (Ok (loaded ++ appended), []) /\
    loaded ++ appended = dropped ++ builds /\
    builds `suffix_of` loaded ++ appended /\
    builds `sublist_of` loaded ++ appended.
Proof.
  intros w loaded builds.
  apply (append_order_kept compact_date w loaded (PathDiv "docs" JSON) builds
           1700000000).
  - reflexivity.
  - apply list_elem_of_lookup. exists 12%nat. exact sample_persisted.
Defined.

Lemma sample_run_ok :
  let w := sample_world 31 (github [sample_image]) in
  run compact_date w = (Ok tt, (run compact_date w).2).
Proof.
  intros w. rewrite (surjective_pairing (run compact_date w)) at 1.
  apply (f_equal (fun r => (r, (run compact_date w).2))).
  vm_compute. reflexivity.
Defined.

Lemma linear_procedure_witness :
  let w := sample_world 31 (github [sample_image]) in
  exists token records evs1 evs2 container_images html,
    let kept := slice_from (- RETAIN) records in
    let headers := make_headers token in
    environ w !! "GITHUB_TOKEN" = Some token /\
    collect_records compact_date w [] = (Ok records, []) /\
    update_records w headers records [] = (Ok kept, evs1) /\
    get_container_images w headers evs1 = (Ok container_images, evs2) /\
    template container_images RETAIN (reverse (generate_rows kept)) = Ok html /\
    (run compact_date w).2
      = evs1 ++ evs2 ++ html_events w html ++ json_events w kept /\
    Forall talk (evs1 ++ evs2) /\
    written JSON (run compact_date w).2 = [JsonDoc kept (now w); Text nl] /\
    persisted (run compact_date w).2 = [kept] /\
    last kept = last records /\
    (truthy (arg_pkgver (args w)) = true ->
     exists d, last kept = Some (new_record (args w) d)).
Proof.
  intros w.
  exact (linear_procedure compact_date w (run compact_date w).2 sample_run_ok).
Defined.

Lemma table_newest_first_witness :
  let w := sample_world 31 (github [sample_image]) in
  exists builds container_images texts,
    persisted (run compact_date w).2 = [builds] /\
    written HTML (run compact_date w).2
    = [Text (template_head RETAIN +:+ cat texts +:+ template_tail); Text nl] /\
    Forall2
      (fun '(prev_record, record) text =>
         template_row container_images (make_row prev_record record) = Ok text)
      (reverse (zip (None :: (Some <$> builds)) builds)) texts /\
    row_pkgver <$> reverse (generate_rows builds) = reverse (pkgver <$> builds) /\
    row_date <$> reverse (generate_rows builds) = reverse (date <$> builds).
Proof.
  intros w.
  exact (table_newest_first compact_date w (run compact_date w).2 sample_run_ok).
Defined.




Lemma new_record_appended_witness :
  build_new_record compact_date sample_args (nightly <$> seqZ 1 2) []
  = (Ok ((nightly <$> seqZ 1 2) ++ [new_record sample_args "2023-03-01"]), [])
  /\
  build_new_record compact_date no_args (nightly <$> seqZ 1 2) []
  = (Ok ((nightly <$> seqZ 1 2) ++ []), []).
Proof.
  split.
  - apply (new_record_appended compact_date sample_args "2023-03-01").
    intros _. split; vm_compute; reflexivity.
  - apply (new_record_appended compact_date no_args "2023-03-01").
    intros Hgiven. vm_compute in Hgiven. discriminate Hgiven.
Defined.

(** C4, as stated. An empty [--pkgver], given together with the other
    options, appends nothing; and a package version from which the date
    parser reads no date makes the step raise, with nothing appended. *)
Lemma new_record_not_appended :
  build_new_record compact_date (with_pkgver sample_args (Some EmptyString))
    (nightly <$> seqZ 1 2) []
  = (Ok (nightly <$> seqZ 1 2), [])
  /\
  forall parse,
    parse "nightly" = None ->
    build_new_record parse (with_pkgver sample_args (Some "nightly-20230301"))
      (nightly <$> seqZ 1 2) []
    = (Raise ParserError, []).
Proof.
  split; [vm_compute; reflexivity |].
  intros parse Hparse. unfold build_new_record. simpl.
  change (hd EmptyString (split "-" (value (Some "nightly-20230301"))))
    with "nightly".
  by rewrite Hparse.
Qed.

Lemma prune_expired_witness :
  let w := sample_world 31 (github [sample_image]) in
  let headers := make_headers "t0k3n" in
  let records := sample_records in
  let evs := (update_records w headers records []).2 in
  let expired := take (length records - 30)%nat records in
  prune_run w headers [] expired evs /\
  urls_of GET evs = release_tag_url <$> expired /\
  (length (urls_of DELETE evs) <= length expired)%nat /\
  drop 2 records = drop (length records - 30)%nat records /\
  expired ++ drop 2 records = records.
Proof.
  intros w headers records evs.
  apply (prune_expired w headers records [] (drop 2 records) evs).
  vm_compute. reflexivity.
Defined.

(** C5, as stated. With 32 records the two oldest are expired; on a remote
    that answers [404] to the lookups the run succeeds, keeps the newest
    30 and has looked up both releases, but has sent no delete request. *)
Lemma expired_without_delete :
  let w := sample_world 31 github_gone in
  (run compact_date w).1 = Ok tt /\
  persisted (run compact_date w).2
  = [drop 2 (sample_records)] /\
  urls_of GET (take 6 (run compact_date w).2)
  = release_tag_url <$> [nightly 1; nightly 2] /\
  urls_of DELETE (run compact_date w).2 = [].
Proof. intros w. repeat split; vm_compute; reflexivity. Qed.

Lemma error_status_raises_witness :
  let down := sample_world 31 github_down in
  let gone := sample_world 31 github_gone in
  ((run compact_date down).1 = Raise (HTTPError 503) /\ @nil event = [])
  /\
  (exists post',
     drop 2 (run compact_date gone).2 = Print "...already gone" :: post').
Proof.
  intros down gone. split.
  - apply (error_status_raises compact_date down
             [Print "Deleting 20230101-1..."]
             (lookup_request (make_headers "t0k3n") (nightly 1)) []
             {| status_code := 503; resp_body := OtherBody |});
      vm_compute; reflexivity.
  - apply (error_status_raises compact_date gone
             [Print "Deleting 20230101-1..."]
             (lookup_request (make_headers "t0k3n") (nightly 1))
             (drop 2 (run compact_date gone).2)
             {| status_code := 404; resp_body := OtherBody |}).
    + etrans; [symmetry; apply (take_drop 2) |].
      apply (f_equal (fun evs => evs ++ drop 2 (run compact_date gone).2)
               (x := take 2 (run compact_date gone).2)
               (y := [Print "Deleting 20230101-1...";
                      Request (lookup_request (make_headers "t0k3n") (nightly 1))])).
      vm_compute. reflexivity.
    + vm_compute. reflexivity.
    + vm_compute. reflexivity.
Defined.

(** C6, as stated. On a remote that answers [404] to the lookups of the
    expired releases, the run receives responses with an error status and
    yet succeeds: it does not raise. *)
Lemma error_status_recovered :
  let w := sample_world 31 github_gone in
  let req := lookup_request (make_headers "t0k3n") (nightly 1) in
  (run compact_date w).2 !! 1%nat = Some (Request req) /\
  remote w [] req = Reply {| status_code := 404; resp_body := OtherBody |} /\
  is_error_status 404 = true /\
  (run compact_date w).1 = Ok tt.
Proof. intros w req. repeat split; vm_compute; reflexivity. Qed.

Lemma incomplete_build_rejected_witness :
  let w := refresh_run
             {| arg_dir := "docs"; arg_pkgver := Some "20230301-1";
                arg_linux_builder := arg_linux_builder sample_args;
                arg_windows_builder := arg_windows_builder sample_args;
                arg_openslide := arg_openslide sample_args;
                arg_java := None;
                arg_winbuild := arg_winbuild sample_args |}
             sample_environ in
  (run compact_date w).2 = [] /\
  exists e,
    (run compact_date w).1 = Raise e /\
    (forall token loaded,
       environ w !! "GITHUB_TOKEN" = Some token ->
       load_records w [] = (Ok loaded, []) ->
       e = SystemExit 2).
Proof.
  intros w. apply (incomplete_build_rejected compact_date w);
    vm_compute; reflexivity.
Defined.

(** C9, as stated. With an empty [--pkgver] and none of the other options
    the run does not stop at the arguments: it goes on to the remote and
    writes both files. And with a package version but no token in the
    environment, the run ends with [KeyError], not with the exit of the
    argument parser. *)
Lemma incomplete_build_not_rejected :
  let w1 := refresh_run (with_pkgver no_args (Some EmptyString)) sample_environ in
  let w2 := refresh_run (with_pkgver no_args (Some "20230301-1")) ∅ in
  ((run compact_date w1).1 = Ok tt /\
   length (requests_of (run compact_date w1).2) = 2%nat /\
   length (written HTML (run compact_date w1).2) = 2%nat /\
   persisted (run compact_date w1).2 = [nightly <$> seqZ 1 2])
  /\
  (run compact_date w2).1 = Raise (KeyError "GITHUB_TOKEN").
Proof. intros w1 w2. repeat split; vm_compute; reflexivity. Qed.

(** * Further properties of the steps *)

(** ** Splitting *)

Lemma append_nil_l s : EmptyString +:+ s = s.
Proof. reflexivity. Qed.

Lemma append_cons c s1 s2 : String c s1 +:+ s2 = String c (s1 +:+ s2).
Proof. reflexivity. Qed.

Lemma split_not_nil sep s : split sep s <> [].
Proof.
  destruct s as [| c s]; simpl; [done |].
  destruct (Ascii.eqb c sep); [done |]. by destruct (split sep s).
Qed.

Lemma split_no_sep sep s : has_char sep s = false -> split sep s = [s].
Proof.
  induction s as [| c s IH]; simpl; [done |].
  destruct (Ascii.eqb c sep); simpl; [done |].
  intros Hs. by rewrite IH.
Qed.

Lemma split_app_sep sep a b :
  has_char sep a = false ->
  split sep (a +:+ String sep b) = a :: split sep b.
Proof.
  induction a as [| c a IH]; [rewrite append_nil_l | rewrite append_cons]; simpl.
  - by rewrite Ascii.eqb_refl.
  - destruct (Ascii.eqb c sep); simpl; [done |].
    intros Ha. by rewrite IH.
Qed.

Lemma join_split sep s : join sep (split sep s) = s.
Proof.
  induction s as [| c s IH]; simpl; [done |].
  destruct (Ascii.eqb_spec c sep) as [-> | Hc].
  - pose proof (split_not_nil sep s) as Hne.
    destruct (split sep s) as [| p ps]; [done |].
    cbn. by rewrite <- IH.
  - pose proof (split_not_nil sep s) as Hne.
    destruct (split sep s) as [| p [| p' ps]]; [done | |]; cbn in *.
    + by rewrite IH.
    + by rewrite <- IH.
Qed.

Lemma split_pieces sep s : Forall (fun p => has_char sep p = false) (split sep s).
Proof.
  induction s as [| c s IH]; simpl; [by repeat constructor |].
  destruct (Ascii.eqb c sep) eqn:Hc; [by constructor |].
  destruct (split sep s) as [| p ps].
  { repeat constructor. simpl. by rewrite Hc. }
  inversion_clear IH as [| ? ? Hp Hps]. constructor; [| done].
  simpl. by rewrite Hc.
Qed.

(** ** The date of a new record *)

(** X12. The date of a new record is read from the part of the package
    version before its first ['-'] and from nothing else: for
    [--pkgver prefix-rest], with [prefix] free of ['-'] and the build
    completely specified, a date [d] that the parser reads from [prefix]
    is the date of the record appended, whatever [rest] is; the record
    keeps the whole package version. *)
Theorem date_from_prefix parse a prefix rest d records h :
  arg_pkgver a = Some (prefix +:+ "-" +:+ rest) ->
  has_char "-" prefix = false ->
  completely_specified a = true ->
  parse prefix = Some d ->
  build_new_record parse a records h = (Ok (records ++ [new_record a d]), []) /\
  date (new_record a d) = d /\
  pkgver (new_record a d) = prefix +:+ "-" +:+ rest.
Proof.
  intros Hv Hprefix Hspec Hparse.
  unfold build_new_record. rewrite completely_specified_negb, Hspec, Hv.
  assert (truthy (Some (prefix +:+ "-" +:+ rest)) = true) as ->.
  { by destruct prefix. }
  simpl. change ("-" +:+ rest) with (String "-" rest).
  rewrite split_app_sep by done. simpl. rewrite Hparse.
  unfold new_record. by rewrite Hv.
Qed.

(** ** Rows *)

Lemma generate_rows_length records :
  length (generate_rows records) = length records.
Proof.
  rewrite <- (length_fmap row_pkgver), generate_rows_pkgver. apply length_fmap.
Qed.

Lemma generate_rows_lookup records i record :
  records !! i = Some record ->
  generate_rows records !! i
  = Some (make_row (match i with O => None | S j => records !! j end) record).
Proof.
  rewrite generate_rows_zip. generalize (@None build) as prev_record.
  revert i. induction records as [| r records IH]; intros i prev_record;
    [done |].
  destruct i as [| i].
  - by intros [= ->].
  - intros Hi. etrans; [exact (IH i (Some r) Hi) |]. by destruct i.
Qed.

Lemma prev_Some prev_record record key x :
  prev prev_record record key = Some x <->
  exists p, prev_record = Some p /\ key p = x /\ key record <> x.
Proof.
  unfold prev. destruct prev_record as [p |].
  - case_bool_decide as Hne.
    + split; [intros [= <-]; eauto |]. by intros (p' & [= <-] & <- & _).
    + split; [done |]. intros (p' & [= <-] & <- & Hx). by destruct Hne.
  - split; [done |]. by intros (p & [=] & _).
Qed.

(** X1. The row generated for the record at position [i] carries that
    record's package version, date and commit ids. Each of its three
    [prev] fields is set exactly when there is a record at position
    [i - 1] whose commit differs from the record's own, and then holds
    the commit of that previous record: a row is compared with the record
    stored just before it and with no other, and the row of the first
    record has no [prev] field. *)
Theorem row_compares_with_previous records i row :
  generate_rows records !! i = Some row ->
  exists record,
    records !! i = Some record /\
    row_pkgver row = pkgver record /\ row_date row = date record /\
    openslide_cur row = openslide record /\
    java_cur row = openslide_java record /\
    winbuild_cur row = openslide_winbuild record /\
    (forall x,
       openslide_prev row = Some x <->
       exists j p, i = S j /\ records !! j = Some p /\
                   openslide p = x /\ openslide record <> x) /\
    (forall x,
       java_prev row = Some x <->
       exists j p, i = S j /\ records !! j = Some p /\
                   openslide_java p = x /\ openslide_java record <> x) /\
    (forall x,
       winbuild_prev row = Some x <->
       exists j p, i = S j /\ records !! j = Some p /\
                   openslide_winbuild p = x /\ openslide_winbuild record <> x).
Proof.
  intros Hrow.
  assert (i < length records)%nat as Hi.
  { rewrite <- generate_rows_length. by eapply lookup_lt_Some. }
  destruct (lookup_lt_is_Some_2 _ _ Hi) as [record Hrecord].
  rewrite (generate_rows_lookup _ _ _ Hrecord) in Hrow. injection Hrow as <-.
  exists record. repeat (split; [done |]).
  assert (forall key x,
    prev (match i with O => None | S j => records !! j end) record key = Some x <->
    exists j p, i = S j /\ records !! j = Some p /\ key p = x /\ key record <> x)
    as Hprev.
  { intros key x. rewrite prev_Some. split.
    - intros (p & Hp & Hx & Hne). destruct i as [| j]; [done |]. eauto 6.
    - intros (j & p & -> & Hp & Hx & Hne). eauto. }
  repeat split; apply Hprev.
Qed.

(** ** Builder references *)

Lemma append_assoc_str s1 s2 s3 : (s1 +:+ s2) +:+ s3 = s1 +:+ (s2 +:+ s3).
Proof.
  induction s1 as [| c s1 IH]; [done |]. rewrite !append_cons. by rewrite IH.
Qed.

Lemma has_char_app c s1 s2 :
  has_char c (s1 +:+ s2) = has_char c s1 || has_char c s2.
Proof.
  induction s1 as [| c' s1 IH]; [done |]. rewrite append_cons. simpl.
  rewrite IH. by rewrite orb_assoc.
Qed.

Lemma split_app_no_sep sep a b :
  has_char sep a = false ->
  split sep (a +:+ b)
  = match split sep b with
    | p :: ps => (a +:+ p) :: ps
    | [] => [a]
    end.
Proof.
  induction a as [| c a IH]; [rewrite append_nil_l | rewrite append_cons]; simpl.
  - intros _. pose proof (split_not_nil sep b). by destruct (split sep b).
  - destruct (Ascii.eqb c sep); simpl; [done |].
    intros Ha. rewrite IH by done. by destruct (split sep b).
Qed.

Lemma jinja_item1_Ok l x :
  jinja_item1 l = Ok x <-> exists p ps, l = p :: x :: ps.
Proof.
  destruct l as [| p [| x' ps]]; simpl.
  - split; [done | by intros (? & ? & ?)].
  - split; [done | by intros (? & ? & ?)].
  - split; [intros [= ->]; eauto | by intros (? & ? & [= _ <- _])].
Qed.

Lemma jinja_item1_Raise l e : jinja_item1 l = Raise e -> e = UndefinedError.
Proof. destruct l as [| p [| x' ps]]; simpl; by intros [= <-]. Qed.

Lemma builder_link_raises container_images builder e :
  builder_link container_images builder = Raise e -> e = UndefinedError.
Proof.
  unfold builder_link, mbind, result_bind.
  destruct (jinja_item1 (split "@" builder)) as [at_part |] eqn:H1.
  - destruct (jinja_item1 (split ":" at_part)) as [colon_part |] eqn:H2; [done |].
    intros [= <-]. by eapply jinja_item1_Raise.
  - intros [= <-]. by eapply jinja_item1_Raise.
Qed.

Lemma builder_link_shortens container_images name algo digest :
  has_char "@" name = false ->
  has_char "@" algo = false -> has_char ":" algo = false ->
  builder_link container_images (name +:+ "@" +:+ algo +:+ ":" +:+ digest)
  = Ok (builder_cell container_images
          (name +:+ "@" +:+ algo +:+ ":" +:+ digest)
          (str_slice_to 8
             (hd EmptyString (split ":" (hd EmptyString (split "@" digest)))))).
Proof.
  intros Hname Halgo1 Halgo2. unfold builder_link.
  change ("@" +:+ algo +:+ ":" +:+ digest)
    with (String "@" (algo +:+ String ":" digest)).
  rewrite split_app_sep by done.
  rewrite (split_app_no_sep "@" algo) by done.
  change (split "@" (String ":" digest))
    with (match split "@" digest with
          | [] => [String ":" EmptyString]
          | p :: ps => String ":" p :: ps
          end).
  pose proof (split_not_nil "@" digest) as Hne.
  destruct (split "@" digest) as [| d0 ps]; [done |]. simpl.
  rewrite split_app_sep by done.
  pose proof (split_not_nil ":" d0) as Hne'.
  by destruct (split ":" d0) as [| d1 ds].
Qed.

Lemma builder_link_Ok_iff container_images builder :
  (digest_ref builder <->
   exists text, builder_link container_images builder = Ok text) /\
  (~ digest_ref builder ->
   builder_link container_images builder = Raise UndefinedError).
Proof.
  assert (digest_ref builder <->
          exists text, builder_link container_images builder = Ok text) as Hiff.
  { split.
    - intros (name & algo & digest & -> & Hname & Halgo1 & Halgo2).
      rewrite builder_link_shortens by done. eauto.
    - intros [text Hlink]. unfold builder_link, mbind, result_bind in Hlink.
      destruct (jinja_item1 (split "@" builder)) as [at_part |] eqn:H1;
        [| done].
      destruct (jinja_item1 (split ":" at_part)) as [colon_part |] eqn:H2;
        [| done].
      apply jinja_item1_Ok in H1 as (name & ps & Hsplit).
      apply jinja_item1_Ok in H2 as (algo & ds & Hsplit').
      pose proof (split_pieces "@" builder) as Hpieces.
      rewrite Hsplit in Hpieces.
      inversion_clear Hpieces as [| ? ? Hname Hrest].
      inversion_clear Hrest as [| ? ? Hat _].
      pose proof (split_pieces ":" at_part) as Hpieces'.
      rewrite Hsplit' in Hpieces'. inversion_clear Hpieces' as [| ? ? Halgo _].
      pose proof (join_split ":" at_part) as Hat_part.
      rewrite Hsplit' in Hat_part.
      change (join ":" (algo :: colon_part :: ds))
        with (algo +:+ String ":" (join ":" (colon_part :: ds))) in Hat_part.
      pose proof (join_split "@" builder) as Hbuilder.
      rewrite Hsplit in Hbuilder.
      change (join "@" (name :: at_part :: ps))
        with (name +:+ String "@" (join "@" (at_part :: ps))) in Hbuilder.
      assert (has_char "@" algo = false) as Halgo'.
      { rewrite <- Hat_part, has_char_app in Hat.
        by apply orb_false_iff in Hat as [? _]. }
      assert (exists tail, join "@" (at_part :: ps) = at_part +:+ tail)
        as [tail Htail].
      { destruct ps as [| p ps]; simpl.
        - exists EmptyString. clear. induction at_part as [| c s IH]; [done |].
          rewrite append_cons. by rewrite <- IH.
        - by eexists. }
      exists name, algo, (join ":" (colon_part :: ds) +:+ tail).
      split; [| done].
      rewrite <- Hbuilder, Htail, <- Hat_part.
      change ("@" +:+ algo +:+ ":" +:+ join ":" (colon_part :: ds) +:+ tail)
        with (String "@" (algo +:+ String ":" (join ":" (colon_part :: ds) +:+ tail))).
      f_equal. f_equal. rewrite append_assoc_str. by rewrite append_cons. }
  split; [done |].
  intros Hno. destruct (builder_link container_images builder) as [text | e] eqn:Hlink.
  - destruct Hno. apply Hiff. eauto.
  - f_equal. by eapply builder_link_raises.
Qed.

(** X2. The [builder_link] macro renders exactly the builder references
    of the form [name@algo:digest], where [name] holds no ['@'] and
    [algo] holds neither ['@'] nor [':']. For every other reference (one
    without ['@'], or without [':'] between its first ['@'] and the
    next) the macro raises [UndefinedError], whatever [container_images]
    holds. *)
Theorem builder_link_defined container_images builder :
  (digest_ref builder <->
   exists text, builder_link container_images builder = Ok text) /\
  (~ digest_ref builder ->
   builder_link container_images builder = Raise UndefinedError).
Proof. apply builder_link_Ok_iff. Qed.

(** X3. For a reference [name@algo:digest] whose parts hold no further
    ['@'] or [':'], the builder cell shows the first eight characters of
    [digest]: inside a link to the image's page when the whole reference
    is a key of [container_images], and as plain text otherwise. *)
Theorem builder_link_digest container_images name algo digest :
  has_char "@" name = false ->
  has_char "@" algo = false -> has_char ":" algo = false ->
  has_char "@" digest = false -> has_char ":" digest = false ->
  builder_link container_images (name +:+ "@" +:+ algo +:+ ":" +:+ digest)
  = Ok (builder_cell container_images
          (name +:+ "@" +:+ algo +:+ ":" +:+ digest) (str_slice_to 8 digest)).
Proof.
  intros Hname Halgo1 Halgo2 Hdigest1 Hdigest2.
  rewrite builder_link_shortens by done.
  rewrite (split_no_sep "@" digest) by done. simpl.
  by rewrite (split_no_sep ":" digest) by done.
Qed.

(** ** When the template raises *)









(** ** The container images *)

Lemma append_inj_l p x y : p +:+ x = p +:+ y -> x = y.
Proof.
  induction p as [| c p IH]; [done |]. rewrite !append_cons. intros [= H]. auto.
Qed.

Lemma foldl_insert_lookup (f : image -> string) (m : gmap string string)
    (images : list image) (k : string) :
  foldl (fun m i => <[f i := image_html_url i]> m) m images !! k
  = match last (filter (fun i => f i = k) images) with
    | Some i => Some (image_html_url i)
    | None => m !! k
    end.
Proof.
  revert m. induction images as [| i images IH]; intros m; [done |].
  simpl. rewrite IH, filter_cons.
  destruct (decide (f i = k)) as [Hi | Hi].
  - rewrite last_cons. destruct (last (filter _ images)); [done |].
    by rewrite <- Hi, lookup_insert_eq.
  - destruct (last (filter _ images)); [done |]. by rewrite lookup_insert_ne.
Qed.

Lemma get_container_images_ok w headers h container_images evs :
  get_container_images w headers h = (Ok container_images, evs) ->
  exists resp1 resp2 linux windows,
    remote w (requests_of h) (versions_request headers "openslide" "linux-builder")
      = Reply resp1 /\
    is_error_status (status_code resp1) = false /\
    resp_body resp1 = VersionsBody linux /\
    remote w (requests_of h ++ [versions_request headers "openslide" "linux-builder"])
      (versions_request headers "openslide" "winbuild-builder") = Reply resp2 /\
    is_error_status (status_code resp2) = false /\
    resp_body resp2 = VersionsBody windows /\
    evs = [ Request (versions_request headers "openslide" "linux-builder");
            Request (versions_request headers "openslide" "winbuild-builder") ] /\
    container_images
    = foldl (fun m i => <[image_ref "openslide" "winbuild-builder" i
                          := image_html_url i]> m)
        (foldl (fun m i => <[image_ref "openslide" "linux-builder" i
                             := image_html_url i]> m) ∅ linux)
        windows.
Proof.
  unfold get_container_images, CONTAINERS. simpl get_container_images_from.
  unfold container_versions.
  change (split "/" "openslide/linux-builder") with ["openslide"; "linux-builder"].
  change (split "/" "openslide/winbuild-builder")
    with ["openslide"; "winbuild-builder"].
  unfold requests_get, requests_call, raise_for_status, versions, versions_request.
  unfold mbind, M_bind.
  destruct (remote w (requests_of h) _) as [| resp1]; [done |].
  destruct (is_error_status (status_code resp1)) eqn:Herr1; simpl; [done |].
  destruct (resp_body resp1) as [| linux |] eqn:Hbody1; simpl; [done | | done].
  rewrite ?app_nil_r, ?requests_of_app.
  change (requests_of [Request ?r]) with [r].
  destruct (remote w _ _) as [| resp2]; [done |].
  destruct (is_error_status (status_code resp2)) eqn:Herr2; simpl; [done |].
  destruct (resp_body resp2) as [| windows |] eqn:Hbody2; simpl; [done | | done].
  intros [= <- <-]. by exists resp1, resp2, linux, windows.
Qed.

Lemma image_ref_linux i :
  image_ref "openslide" "linux-builder" i
  = "ghcr.io/openslide/linux-builder@" +:+ image_name i.
Proof. reflexivity. Qed.

Lemma image_ref_windows i :
  image_ref "openslide" "winbuild-builder" i
  = "ghcr.io/openslide/winbuild-builder@" +:+ image_name i.
Proof. reflexivity. Qed.

Lemma linux_ref_not_windows x y :
  "ghcr.io/openslide/linux-builder@" +:+ x
  <> "ghcr.io/openslide/winbuild-builder@" +:+ y.
Proof.
  intros H. apply (f_equal (String.get 18)) in H. vm_compute in H. discriminate H.
Qed.

Lemma filter_never {A} (l : list A) : filter (fun _ => False) l = [].
Proof.
  induction l as [| x l IH]; [done |]. rewrite filter_cons_False; [done | tauto].
Qed.

(** X6. When the step that gets the container images succeeds, it has
    sent two requests, the version listing of [openslide/linux-builder]
    and then that of [openslide/winbuild-builder]. The map it yields
    holds, under the key [ghcr.io/openslide/<container>@<name>], the page
    of the last image named [name] in the listing of that container, and
    it has no other key. *)
Theorem container_images_lookup w headers h container_images evs :
  get_container_images w headers h = (Ok container_images, evs) ->
  exists resp1 resp2 linux windows,
    evs = [ Request (versions_request headers "openslide" "linux-builder");
            Request (versions_request headers "openslide" "winbuild-builder") ] /\
    remote w (requests_of h) (versions_request headers "openslide" "linux-builder")
      = Reply resp1 /\
    resp_body resp1 = VersionsBody linux /\
    remote w (requests_of h ++ [versions_request headers "openslide" "linux-builder"])
      (versions_request headers "openslide" "winbuild-builder") = Reply resp2 /\
    resp_body resp2 = VersionsBody windows /\
    (forall name,
       container_images !! ("ghcr.io/openslide/linux-builder@" +:+ name)
       = listed_url linux name) /\
    (forall name,
       container_images !! ("ghcr.io/openslide/winbuild-builder@" +:+ name)
       = listed_url windows name) /\
    (forall ref,
       is_Some (container_images !! ref) ->
       exists name,
         ref = "ghcr.io/openslide/linux-builder@" +:+ name \/
         ref = "ghcr.io/openslide/winbuild-builder@" +:+ name).
Proof.
  intros (resp1 & resp2 & linux & windows & Hreply1 & _ & Hbody1 & Hreply2 & _
          & Hbody2 & -> & ->)%get_container_images_ok.
  exists resp1, resp2, linux, windows. repeat (split; [done |]).
  assert (forall ref,
    foldl (fun m i => <[image_ref "openslide" "winbuild-builder" i
                        := image_html_url i]> m)
      (foldl (fun m i => <[image_ref "openslide" "linux-builder" i
                           := image_html_url i]> m)
             (∅ : gmap string string) linux) windows !! ref
    = match last (filter (fun i => image_ref "openslide" "winbuild-builder" i = ref)
                    windows) with
      | Some i => Some (image_html_url i)
      | None =>
          image_html_url
            <$> last (filter (fun i => image_ref "openslide" "linux-builder" i = ref)
                        linux)
      end) as Hlookup.
  { intros ref. rewrite !foldl_insert_lookup, lookup_empty.
    by destruct (last (filter _ linux)). }
  split; [| split].
  - intros name. rewrite Hlookup.
    rewrite (list_filter_iff _ (fun _ => False)).
    2: { intros i. rewrite image_ref_windows. split; [| done].
         intros Heq. by eapply linux_ref_not_windows. }
    rewrite filter_never.
    simpl. unfold listed_url. f_equal. f_equal. apply list_filter_iff.
    intros i. rewrite image_ref_linux. split; [apply append_inj_l | by intros ->].
  - intros name. rewrite Hlookup.
    rewrite (list_filter_iff _ (fun i => image_name i = name)).
    2: { intros i. rewrite image_ref_windows.
         split; [apply append_inj_l | by intros ->]. }
    unfold listed_url.
    destruct (last (filter _ windows)) as [i |]; [done |].
    rewrite (list_filter_iff _ (fun _ => False)).
    2: { intros i. rewrite image_ref_linux. split; [| done].
         intros Heq. symmetry in Heq. by eapply linux_ref_not_windows. }
    by rewrite filter_never.
  - intros ref [url Href]. rewrite Hlookup in Href.
    destruct (last (filter _ windows)) as [i |] eqn:Hlast.
    + apply last_Some_elem_of, list_elem_of_filter in Hlast as [<- _].
      exists (image_name i). right. apply image_ref_windows.
    + destruct (last (filter _ linux)) as [i |] eqn:Hlast'; [| done].
      apply last_Some_elem_of, list_elem_of_filter in Hlast' as [<- _].
      exists (image_name i). left. apply image_ref_linux.
Qed.

(** ** The requests of a run *)

Lemma requests_satisfy_silent P {A} (m : M A) :
  silent m -> requests_satisfy P m.
Proof. intros Hm h r evs [-> _]%(silent_inv _ _ _ _ Hm). constructor. Qed.

Lemma requests_satisfy_bind P {A B} (m : M A) (f : A -> M B) :
  requests_satisfy P m -> (forall a, requests_satisfy P (f a)) ->
  requests_satisfy P (m ≫= f).
Proof.
  intros Hm Hf h r evs
    [(e & Hrun & ->) | (a & evs1 & evs2 & Hrun & Hk & ->)]%bind_inv.
  - by eapply Hm.
  - rewrite requests_of_app. apply Forall_app.
    split; [by eapply Hm | by eapply Hf].
Qed.

Lemma requests_satisfy_print P s : requests_satisfy P (print s).
Proof. intros h r evs [= <- <-]. constructor. Qed.

Lemma requests_satisfy_call (P : request -> Prop) w m url headers :
  P {| req_method := m; req_url := url; req_headers := headers |} ->
  requests_satisfy P (requests_call w m url headers).
Proof.
  intros HP h r evs. unfold requests_call.
  destruct (remote w _ _); intros [= <- <-]; by repeat constructor.
Qed.

Lemma requests_satisfy_for_each P {A} (l : list A) (body : A -> M unit) :
  (forall x, requests_satisfy P (body x)) -> requests_satisfy P (for_each l body).
Proof.
  intros Hbody. induction l as [| x l IH]; simpl.
  - apply requests_satisfy_silent, silent_ret.
  - apply requests_satisfy_bind; [apply Hbody | by intros _].
Qed.

Lemma requests_satisfy_update_records (P : request -> Prop) w headers records :
  (forall record, P (lookup_request headers record)) ->
  (forall id, P (delete_request headers id)) ->
  requests_satisfy P (update_records w headers records).
Proof.
  intros Hlookup Hdelete. unfold update_records.
  apply requests_satisfy_bind;
    [| intros _; apply requests_satisfy_silent, silent_ret].
  apply requests_satisfy_for_each. intros record. unfold delete_release.
  apply requests_satisfy_bind; [apply requests_satisfy_print | intros _].
  apply requests_satisfy_bind;
    [apply requests_satisfy_call, Hlookup | intros resp].
  destruct (status_code resp =? 404); [apply requests_satisfy_print |].
  apply requests_satisfy_bind;
    [apply requests_satisfy_silent, silent_raise_for_status | intros _].
  apply requests_satisfy_bind;
    [apply requests_satisfy_silent, silent_release_id | intros id].
  apply requests_satisfy_bind;
    [apply requests_satisfy_call, Hdelete | intros resp'].
  apply requests_satisfy_silent, silent_raise_for_status.
Qed.

Lemma requests_satisfy_get_container_images (P : request -> Prop) w headers :
  (forall container_org container_name,
     P (versions_request headers container_org container_name)) ->
  requests_satisfy P (get_container_images w headers).
Proof.
  intros Hversions.
  unfold get_container_images. generalize (∅ : gmap string string).
  induction CONTAINERS as [| container containers IH]; intros container_images;
    simpl.
  { apply requests_satisfy_silent, silent_ret. }
  apply requests_satisfy_bind; [| intros ?; apply IH].
  unfold container_versions.
  destruct (split "/" container) as [| container_org [| container_name [|]]];
    try apply requests_satisfy_silent, silent_raise.
  apply requests_satisfy_bind;
    [apply requests_satisfy_call, Hversions | intros resp].
  apply requests_satisfy_silent.
  apply silent_bind; [apply silent_raise_for_status | intros _].
  apply silent_bind; [apply silent_versions | intros images].
  apply silent_ret.
Qed.

(** The requests of a run are those of the update step and of the fetch
    of the container images, with the headers made from the token. *)
Lemma run_requests (P : request -> Prop) parse w token :
  environ w !! "GITHUB_TOKEN" = Some token ->
  (forall records, requests_satisfy P (update_records w (make_headers token) records)) ->
  requests_satisfy P (get_container_images w (make_headers token)) ->
  Forall P (requests_of (run parse w).2).
Proof.
  intros Htoken Hupd Himg.
  pose proof (run_has_shape parse w) as Hshape. unfold run_shape in Hshape.
  destruct (collect_records parse w []) as [[records | e] evs0].
  2: { destruct Hshape as [_ ->]. constructor. }
  destruct Hshape as (token' & Htoken' & Hshape).
  assert (token' = token) as -> by congruence.
  destruct (update_records w (make_headers token) records [])
    as [[kept | e] evs1] eqn:Hupd1.
  2: { destruct Hshape as [_ ->]. by eapply Hupd. }
  destruct Hshape as [_ Hshape]. apply Hupd in Hupd1.
  destruct (get_container_images w (make_headers token) evs1)
    as [[container_images | e] evs2] eqn:Himg1.
  2: { destruct Hshape as [_ ->]. rewrite requests_of_app. apply Forall_app.
       split; [done | by eapply Himg]. }
  apply Himg in Himg1.
  destruct (template container_images RETAIN _) as [html | e];
    destruct Hshape as [_ ->]; rewrite !requests_of_app; simpl;
    rewrite ?app_nil_r; by apply Forall_app.
Qed.

(** X7. Every request of a run goes to [https://api.github.com/] and
    carries the two headers built from the token of the environment,
    [Accept] and [Authorization: token <token>]. *)
Theorem requests_authorized parse w token :
  environ w !! "GITHUB_TOKEN" = Some token ->
  Forall (authorized token) (requests_of (run parse w).2).
Proof.
  intros Htoken. apply (run_requests _ parse w token Htoken).
  - intros records. apply requests_satisfy_update_records.
    + intros record. split; [done | by vm_compute].
    + intros id. split; [done | by vm_compute].
  - apply requests_satisfy_get_container_images.
    intros container_org container_name. split; [done | by vm_compute].
Qed.

(** ** Within the retention limit *)

Lemma delete_release_emits w headers record h :
  (delete_release w headers record h).2 <> [].
Proof.
  rewrite delete_release_unfold. unfold found_gone, deleted, looked_up.
  destruct (remote w (requests_of h) _) as [| resp]; [done |].
  destruct (status_code resp =? 404); [done |].
  destruct (is_error_status (status_code resp)); [done |].
  destruct (resp_body resp); [| done | done].
  destruct (remote w _ _) as [| resp']; [done |].
  by destruct (is_error_status (status_code resp')).
Qed.

Lemma nothing_to_prune w headers records h :
  Z.of_nat (length records) <= RETAIN ->
  update_records w headers records h = (Ok records, []).
Proof.
  intros Hlen. unfold update_records.
  rewrite slice_to_RETAIN, slice_from_RETAIN.
  replace (length records - 30)%nat with 0%nat by (unfold RETAIN in Hlen; lia).
  done.
Qed.

(** X8. The step that updates the records prints nothing and sends no
    request exactly when there are at most [RETAIN] records; it then
    yields the records as they are. *)
Theorem update_silent_iff_within_limit w headers records h :
  (Z.of_nat (length records) <= RETAIN <->
   (update_records w headers records h).2 = []) /\
  (Z.of_nat (length records) <= RETAIN ->
   update_records w headers records h = (Ok records, [])).
Proof.
  split; [| apply nothing_to_prune]. split.
  { intros Hlen. by rewrite nothing_to_prune. }
  intros Hsilent.
  destruct (Z.le_gt_cases (Z.of_nat (length records)) RETAIN) as [| Hlen];
    [done |].
  exfalso. revert Hsilent. unfold update_records. rewrite slice_to_RETAIN.
  destruct (take (length records - 30) records) as [| record expired] eqn:Htake.
  { apply (f_equal length) in Htake. rewrite length_take in Htake.
    simpl in Htake. unfold RETAIN in Hlen. lia. }
  simpl. pose proof (delete_release_emits w headers record h) as Hemits.
  unfold mbind at 1 2, M_bind.
  destruct (delete_release w headers record h) as [[[] | e] evs1]; simpl in *.
  - destruct (for_each expired (delete_release w headers) (h ++ evs1))
      as [[[] | e] evs2]; simpl; intros Hnil; by destruct evs1.
  - done.
Qed.

(** X9. The state a run has written is stable: a later run that loads
    it and is given no new build works on these very records, sends no
    release lookup and no deletion (all its requests are the [GET]s of
    the version listings), and, when it succeeds, writes the same records
    again. *)
Theorem persisted_state_is_stable parse w1 w2 builds :
  persisted (run parse w1).2 = [builds] ->
  state_file w2 = Ok builds ->
  truthy (arg_pkgver (args w2)) = false ->
  is_Some (environ w2 !! "GITHUB_TOKEN") ->
  collect_records parse w2 [] = (Ok builds, []) /\
  Forall (fun r => req_method r = GET /\ is_release_lookup r = false)
    (requests_of (run parse w2).2) /\
  ((run parse w2).1 = Ok tt -> persisted (run parse w2).2 = [builds]).
Proof.
  intros Hpersisted Hfile Hpkgver [token Htoken].
  assert (Z.of_nat (length builds) <= RETAIN) as Hlen.
  { rewrite persisted_run in Hpersisted.
    destruct (collect_records parse w1 []) as [[records | e] evs0]; [| done].
    destruct (run parse w1).1; [| done]. injection Hpersisted as <-.
    rewrite length_slice_from_RETAIN. unfold RETAIN. lia. }
  assert (collect_records parse w2 [] = (Ok builds, [])) as Hrecords.
  { unfold collect_records, os_environ, load_records, try_except, lift,
      build_new_record.
    rewrite Htoken, Hfile, Hpkgver. done. }
  split; [done |].
  pose proof (run_has_shape parse w2) as Hshape. unfold run_shape in Hshape.
  rewrite Hrecords in Hshape. destruct Hshape as (token' & Htoken' & Hshape).
  assert (token' = token) as -> by congruence.
  rewrite (nothing_to_prune _ _ _ [] Hlen) in Hshape.
  destruct Hshape as [_ Hshape].
  pose proof (requests_satisfy_get_container_images
                (fun r => req_method r = GET /\ is_release_lookup r = false)
                w2 (make_headers token)) as Himg.
  destruct (get_container_images w2 (make_headers token) [])
    as [[container_images | e] evs2] eqn:Himg1.
  2: { destruct Hshape as [Hr ->]. rewrite Hr. split; [| done].
       eapply Himg; [| done]. intros. split; [done | by vm_compute]. }
  pose proof (talk_no_write _ (talks_get_container_images _ _ _ _ _ Himg1))
    as [Hp _].
  eapply Himg in Himg1; [| intros; split; [done | by vm_compute]].
  destruct (template container_images RETAIN _) as [html | e];
    destruct Hshape as [Hr ->]; rewrite Hr; simpl.
  - split; [| intros _; by rewrite persisted_app, Hp].
    rewrite requests_of_app. simpl. by rewrite app_nil_r.
  - split; [| done]. rewrite requests_of_app. simpl. by rewrite app_nil_r.
Qed.

(** ** Failures *)

(** X10. Only an [IOError] on the state file is taken for a missing
    file. Any other exception of the load (a file that is not JSON, or
    has no ['builds'] entry) ends the run before anything is printed,
    requested or written; the run raises that exception, or the
    [KeyError] of the token when [GITHUB_TOKEN] is not set. *)
Theorem corrupt_state_file_raises parse w e :
  state_file w = Raise e ->
  is_IOError e = false ->
  run parse w
  = (Raise (match environ w !! "GITHUB_TOKEN" with
            | Some _ => e
            | None => KeyError "GITHUB_TOKEN"
            end), []).
Proof.
  intros Hfile He.
  unfold run, main, os_environ, load_records, try_except, lift.
  unfold mbind, M_bind.
  destruct (environ w !! "GITHUB_TOKEN"); simpl; [| done].
  by rewrite Hfile, He.
Qed.



(** ** Requests without a response *)

Lemma stops_without_reply_silent w {A} (m : M A) :
  silent m -> stops_without_reply w m.
Proof.
  intros Hm h r evs pre req post Hrun Hevs.
  apply (silent_inv _ _ _ _ Hm) in Hrun as [-> _]. by destruct pre.
Qed.

Lemma stops_without_reply_no_request w {A} (m : M A) :
  (forall h r evs, m h = (r, evs) -> requests_of evs = []) ->
  stops_without_reply w m.
Proof.
  intros Hm h r evs pre req post Hrun -> _.
  apply Hm in Hrun. rewrite requests_of_app in Hrun.
  by apply app_nil in Hrun as [_ [=]].
Qed.

Lemma stops_without_reply_bind w {A B} (m : M A) (f : A -> M B) :
  stops_without_reply w m -> (forall a, stops_without_reply w (f a)) ->
  stops_without_reply w (m ≫= f).
Proof.
  unfold stops_without_reply.
  intros Hm Hf h r evs pre req post Hrun Hevs Hreply.
  apply bind_inv in Hrun as [(e & Hrun & ->) | (a & evs1 & evs2 & Hrun & Hk & ->)].
  { by destruct (Hm h _ _ pre req post Hrun Hevs Hreply) as [[= ->] ->]. }
  apply app_eq_inv in Hevs as [(k & -> & Hk2) | (k & -> & ->)].
  - destruct k as [| ev k]; simpl in Hk2.
    + subst evs2. rewrite app_nil_r in Hk.
      eapply (Hf a _ _ _ []); eauto. by rewrite app_nil_r.
    + injection Hk2 as <- ->.
      by destruct (Hm h (Ok a) _ pre req k Hrun eq_refl Hreply).
  - eapply (Hf a _ _ _ k); eauto. by rewrite <- (assoc_L (++)).
Qed.

Lemma stops_without_reply_call w {A} m url headers (k : response -> M A) :
  (forall resp, stops_without_reply w (k resp)) ->
  stops_without_reply w (requests_call w m url headers ≫= k).
Proof.
  intros Hk h r evs pre req post Hrun Hevs Hreply.
  apply bind_inv in Hrun as [(e & Hrun & ->) | (a & evs1 & evs2 & Hrun & Hrest & ->)];
    unfold requests_call in Hrun.
  - destruct (remote w (requests_of h) _) eqn:Hremote; [| done].
    injection Hrun as <- <-.
    destruct pre as [| ev [| ev' pre]]; [| done | done].
    by injection Hevs as <- <-.
  - destruct (remote w (requests_of h) _) as [| resp0] eqn:Hremote; [done |].
    injection Hrun as <- <-.
    destruct pre as [| ev pre]; simpl in Hevs.
    + injection Hevs as <- <-. rewrite app_nil_r in Hreply. congruence.
    + injection Hevs as <- ->.
      eapply (Hk resp0 _ _ _ pre); eauto. by rewrite <- (assoc_L (++)).
Qed.

Lemma stops_without_reply_main parse w : stops_without_reply w (main parse w).
Proof.
  unfold main.
  apply stops_without_reply_bind;
    [apply stops_without_reply_silent, silent_os_environ | intros token].
  apply stops_without_reply_bind;
    [apply stops_without_reply_silent, silent_load_records | intros loaded].
  apply stops_without_reply_bind;
    [apply stops_without_reply_silent, silent_build_new_record | intros records].
  apply stops_without_reply_bind; [| intros kept].
  { unfold update_records. apply stops_without_reply_bind;
      [| intros _; apply stops_without_reply_silent, silent_ret].
    induction (slice_to (- RETAIN) records) as [| record expired IH]; simpl.
    { apply stops_without_reply_silent, silent_ret. }
    apply stops_without_reply_bind; [| by intros _].
    unfold delete_release.
    apply stops_without_reply_bind; [| intros _].
    { apply stops_without_reply_no_request. by intros h r evs [= <- <-]. }
    apply stops_without_reply_call. intros resp.
    destruct (status_code resp =? 404).
    { apply stops_without_reply_no_request. by intros h r evs [= <- <-]. }
    apply stops_without_reply_bind;
      [apply stops_without_reply_silent, silent_raise_for_status | intros _].
    apply stops_without_reply_bind;
      [apply stops_without_reply_silent, silent_release_id | intros id].
    apply stops_without_reply_call. intros resp'.
    apply stops_without_reply_silent, silent_raise_for_status. }
  apply stops_without_reply_bind; [| intros container_images].
  { unfold get_container_images. generalize (∅ : gmap string string).
    induction CONTAINERS as [| container containers IH]; intros container_images;
      simpl.
    { apply stops_without_reply_silent, silent_ret. }
    apply stops_without_reply_bind; [| intros ?; apply IH].
    unfold container_versions.
    destruct (split "/" container) as [| container_org [| container_name [|]]];
      try apply stops_without_reply_silent, silent_raise.
    apply stops_without_reply_call. intros resp.
    apply stops_without_reply_silent.
    apply silent_bind; [apply silent_raise_for_status | intros _].
    apply silent_bind; [apply silent_versions | intros images].
    apply silent_ret. }
  apply stops_without_reply_bind.
  - apply stops_without_reply_no_request, write_html_no_request.
  - intros _. apply stops_without_reply_no_request, write_json_no_request.
Qed.

(** X11. A request that gets no response ends the run: the run raises
    the exception of the request, nothing happens after the request, and
    the state file is not written. *)
Theorem no_response_raises parse w pre req post :
  (run parse w).2 = pre ++ Request req :: post ->
  remote w (requests_of pre) req = NoReply ->
  (run parse w).1 = Raise RequestException /\ post = [] /\
  persisted (run parse w).2 = [].
Proof.
  intros Hlog Hreply.
  destruct (stops_without_reply_main parse w [] (run parse w).1 (run parse w).2
              pre req post) as [Hr ->]; [apply surjective_pairing | done | done |].
  split; [done |]. split; [done |].
  rewrite persisted_run, Hr. by destruct (collect_records parse w []) as [[] ?].
Qed.

(** ** Slices and pieces *)

(** The two slices at [i] split the list, for every [i]. *)
Lemma slice_partition {A} (i : Z) (l : list A) :
  slice_to i l ++ slice_from i l = l /\
  (0 <= i -> length (slice_to i l) = Z.to_nat (Z.min i (Z.of_nat (length l)))) /\
  (i < 0 -> length (slice_from i l) = Z.to_nat (Z.min (- i) (Z.of_nat (length l)))).
Proof.
  unfold slice_to, slice_from, slice_bound. split; [apply take_drop |]. split.
  - intros Hi. rewrite length_take.
    destruct (Z.ltb_spec i 0); lia.
  - intros Hi. rewrite length_drop.
    destruct (Z.ltb_spec i 0); lia.
Qed.

(** Splitting and joining again gives the string back; the pieces are
    free of the separator. *)
Lemma split_round_trip sep s :
  join sep (split sep s) = s /\
  split sep s <> [] /\
  Forall (fun piece => has_char sep piece = false) (split sep s) /\
  (has_char sep s = false -> split sep s = [s]).
Proof.
  split; [apply join_split |]. split; [apply split_not_nil |].
  split; [apply split_pieces | apply split_no_sep].
Qed.

(** ** Deletions *)

Lemma deletes_looked_up_no_delete w headers expired {A} (m : M A) :
  (forall h r evs, m h = (r, evs) ->
     Forall (fun req => req_method req = GET) (requests_of evs)) ->
  deletes_looked_up w headers expired m.
Proof.
  intros Hm h r evs pre req post Hrun -> Hdelete.
  apply Hm in Hrun. rewrite requests_of_app in Hrun.
  apply Forall_app in Hrun as [_ Hrun]. simpl in Hrun.
  inversion_clear Hrun as [| ? ? Hget _]. congruence.
Qed.

Lemma deletes_looked_up_bind w headers expired {A B} (m : M A) (f : A -> M B) :
  deletes_looked_up w headers expired m ->
  (forall a, deletes_looked_up w headers expired (f a)) ->
  deletes_looked_up w headers expired (m ≫= f).
Proof.
  unfold deletes_looked_up.
  intros Hm Hf h r evs pre req post Hrun Hevs Hdelete.
  apply bind_inv in Hrun as [(e & Hrun & ->) | (a & evs1 & evs2 & Hrun & Hk & ->)].
  { eapply Hm; eauto. }
  apply app_eq_inv in Hevs as [(k & -> & Hk2) | (k & -> & ->)].
  - destruct k as [| ev k]; simpl in Hk2.
    + subst evs2. rewrite app_nil_r in Hk.
      destruct (Hf a _ _ _ [] req post Hk eq_refl Hdelete)
        as (pre' & ? & ? & ? & Hnil & _).
      by destruct pre'.
    + injection Hk2 as <- ->. eapply Hm; eauto.
  - destruct (Hf a _ _ _ k req post Hk eq_refl Hdelete)
      as (pre' & record & resp & id & -> & Hin & Hreply & H404 & Hbody & ->).
    exists (evs1 ++ pre'), record, resp, id.
    rewrite <- (assoc_L (++)) in Hreply. by rewrite (assoc_L (++)).
Qed.

Lemma deletes_looked_up_weaken w headers expired expired' {A} (m : M A) :
  expired ⊆ expired' ->
  deletes_looked_up w headers expired m ->
  deletes_looked_up w headers expired' m.
Proof.
  intros Hsub Hm h r evs pre req post Hrun Hevs Hdelete.
  destruct (Hm h r evs pre req post Hrun Hevs Hdelete)
    as (pre' & record & resp & id & ? & ? & ?).
  exists pre', record, resp, id. split; [done |]. split; [by apply Hsub | done].
Qed.

Lemma deletes_looked_up_delete_release w headers record :
  deletes_looked_up w headers [record] (delete_release w headers record).
Proof.
  intros h r evs pre req post Hrun Hevs Hdelete.
  rewrite delete_release_unfold in Hrun.
  assert (forall evs', evs' = looked_up headers record \/
                       evs' = found_gone headers record ->
                       evs' <> pre ++ Request req :: post) as Hno.
  { intros evs' [-> | ->] Heq; unfold found_gone, looked_up in Heq;
      destruct pre as [| ? [| ? [| ? [| ? ?]]]]; simplify_eq/=. }
  destruct (remote w (requests_of h) _) as [| resp] eqn:Hreply.
  { injection Hrun as <- <-. by destruct (Hno _ (or_introl eq_refl)). }
  destruct (Z.eqb_spec (status_code resp) 404) as [H404 | H404].
  { injection Hrun as <- <-. by destruct (Hno _ (or_intror eq_refl)). }
  destruct (is_error_status (status_code resp)).
  { injection Hrun as <- <-. by destruct (Hno _ (or_introl eq_refl)). }
  destruct (resp_body resp) as [id | |] eqn:Hbody;
    [| injection Hrun as <- <-; by destruct (Hno _ (or_introl eq_refl)) ..].
  assert (evs = deleted headers record id) as ->.
  { destruct (remote w _ (delete_request headers id)) as [| resp'];
      [| destruct (is_error_status (status_code resp'))]; by injection Hrun. }
  unfold deleted, looked_up in Hevs.
  destruct pre as [| ? [| ? [| ? [| ? ?]]]]; simplify_eq/=.
  exists [Print ("Deleting " +:+ pkgver record +:+ "...")], record, resp, id.
  split; [done |]. split; [by apply list_elem_of_singleton |].
  by rewrite requests_of_print.
Qed.

Lemma deletes_looked_up_for_each w headers expired :
  deletes_looked_up w headers expired
    (for_each expired (delete_release w headers)).
Proof.
  induction expired as [| record expired IH]; simpl.
  { apply deletes_looked_up_no_delete. intros h r evs [= <- <-]. constructor. }
  apply deletes_looked_up_bind.
  - eapply deletes_looked_up_weaken; [| apply deletes_looked_up_delete_release].
    intros x ->%list_elem_of_singleton. apply elem_of_cons. by left.
  - intros _. eapply deletes_looked_up_weaken; [| exact IH].
    intros x Hx. apply elem_of_cons. by right.
Qed.

Lemma run_after_collect parse w token records :
  environ w !! "GITHUB_TOKEN" = Some token ->
  collect_records parse w [] = (Ok records, []) ->
  run parse w
  = (records' ← update_records w (make_headers token) records;
     container_images ← get_container_images w (make_headers token);
     write_html (args w) container_images (generate_rows records');;
     write_json w records') [].
Proof.
  intros Htoken Hrecords.
  destruct (collect_records_inv _ _ _ Hrecords)
    as (token' & loaded & Htoken' & Hfile & Hnew).
  assert (token' = token) as -> by congruence.
  unfold run, main.
  rewrite (bind_silent_ok _ _ _ token (silent_os_environ _ _)).
  2: { unfold os_environ. by rewrite Htoken. }
  rewrite (bind_silent_ok _ _ _ loaded (silent_load_records _)).
  2: { unfold load_records, try_except, lift.
       by destruct Hfile as [-> | [-> ->]]. }
  rewrite (bind_silent_ok _ _ _ records (silent_build_new_record _ _ _)).
  2: { by rewrite Hnew. }
  done.
Qed.

(** X14. A run deletes nothing but what it has just looked up: every
    [DELETE] request of a run follows at once the lookup of the release
    of one of the expired records (those before the newest [RETAIN]),
    the lookup was answered with a status other than [404], and the
    request deletes the release whose id the answer named. *)
Theorem deletion_follows_lookup parse w token records pre req post :
  environ w !! "GITHUB_TOKEN" = Some token ->
  collect_records parse w [] = (Ok records, []) ->
  (run parse w).2 = pre ++ Request req :: post ->
  req_method req = DELETE ->
  exists pre' record resp id,
    pre = pre' ++ [Request (lookup_request (make_headers token) record)] /\
    record ∈ take (length records - 30)%nat records /\
    remote w (requests_of pre') (lookup_request (make_headers token) record)
      = Reply resp /\
    status_code resp <> 404 /\
    resp_body resp = ReleaseBody id /\
    req = delete_request (make_headers token) id.
Proof.
  intros Htoken Hrecords Hlog Hdelete.
  rewrite <- slice_to_RETAIN.
  rewrite (run_after_collect _ _ _ _ Htoken Hrecords) in Hlog.
  match type of Hlog with (?m0 []).2 = _ => set (m := m0) in Hlog end.
  enough (deletes_looked_up w (make_headers token)
            (slice_to (- RETAIN) records) m) as Hm.
  { exact (Hm [] (m []).1 (m []).2 pre req post (surjective_pairing _)
             Hlog Hdelete). }
  subst m. apply deletes_looked_up_bind.
  - unfold update_records. apply deletes_looked_up_bind.
    + apply deletes_looked_up_for_each.
    + intros _. apply deletes_looked_up_no_delete.
      intros h r evs [= <- <-]. constructor.
  - intros kept. apply deletes_looked_up_no_delete. intros h r evs Hrun.
    assert (requests_satisfy (fun req => req_method req = GET)
              (get_container_images w (make_headers token))) as Himg.
    { apply requests_satisfy_get_container_images. done. }
    apply bind_inv in Hrun
      as [(e & Hrun & ->) | (a & evs1 & evs2 & Hrun & Hk & ->)].
    { by eapply Himg. }
    rewrite requests_of_app. apply Forall_app. split; [by eapply Himg |].
    apply bind_inv in Hk
      as [(e & Hk & ->) | ([] & evs3 & evs4 & Hk & Hk' & ->)].
    + apply write_html_no_request in Hk. rewrite Hk. constructor.
    + apply write_html_no_request in Hk. apply write_json_no_request in Hk'.
      rewrite requests_of_app, Hk, Hk'. constructor.
Qed.

(** * The further properties on sample runs *)

Lemma digest_ref_has_at builder : digest_ref builder -> has_char "@" builder = true.
Proof.
  intros (name & algo & digest & -> & _). rewrite has_char_app.
  change ("@" +:+ algo +:+ ":" +:+ digest) with (String "@" (algo +:+ ":" +:+ digest)).
  simpl. apply orb_true_r.
Qed.

Lemma row_compares_with_previous_witness :
  exists record,
    [nightly 1; nightly 2] !! 1%nat = Some record /\
    row_pkgver (make_row (Some (nightly 1)) (nightly 2)) = pkgver record /\
    row_date (make_row (Some (nightly 1)) (nightly 2)) = date record /\
    openslide_cur (make_row (Some (nightly 1)) (nightly 2)) = openslide record /\
    java_cur (make_row (Some (nightly 1)) (nightly 2)) = openslide_java record /\
    winbuild_cur (make_row (Some (nightly 1)) (nightly 2))
      = openslide_winbuild record /\
    (forall x,
       openslide_prev (make_row (Some (nightly 1)) (nightly 2)) = Some x <->
       exists j p, 1%nat = S j /\ [nightly 1; nightly 2] !! j = Some p /\
                   openslide p = x /\ openslide record <> x) /\
    (forall x,
       java_prev (make_row (Some (nightly 1)) (nightly 2)) = Some x <->
       exists j p, 1%nat = S j /\ [nightly 1; nightly 2] !! j = Some p /\
                   openslide_java p = x /\ openslide_java record <> x) /\
    (forall x,
       winbuild_prev (make_row (Some (nightly 1)) (nightly 2)) = Some x <->
       exists j p, 1%nat = S j /\ [nightly 1; nightly 2] !! j = Some p /\
                   openslide_winbuild p = x /\ openslide_winbuild record <> x).
Proof.
  apply (row_compares_with_previous [nightly 1; nightly 2] 1
           (make_row (Some (nightly 1)) (nightly 2))).
  vm_compute. reflexivity.
Defined.

Lemma builder_link_digest_witness :
  builder_link sample_container_images
    ("ghcr.io/openslide/linux-builder" +:+ "@" +:+ "sha256" +:+ ":"
       +:+ "0123456789abcdef")
  = Ok (builder_cell sample_container_images
          ("ghcr.io/openslide/linux-builder" +:+ "@" +:+ "sha256" +:+ ":"
             +:+ "0123456789abcdef")
          (str_slice_to 8 "0123456789abcdef")).
Proof. apply builder_link_digest; vm_compute; reflexivity. Defined.




Lemma container_images_lookup_witness :
  let w := sample_world 2 (github [sample_image]) in
  let headers := make_headers "t0k3n" in
  exists resp1 resp2 linux windows,
    (get_container_images w headers []).2
    = [ Request (versions_request headers "openslide" "linux-builder");
        Request (versions_request headers "openslide" "winbuild-builder") ] /\
    remote w (requests_of []) (versions_request headers "openslide" "linux-builder")
      = Reply resp1 /\
    resp_body resp1 = VersionsBody linux /\
    remote w (requests_of [] ++ [versions_request headers "openslide" "linux-builder"])
      (versions_request headers "openslide" "winbuild-builder") = Reply resp2 /\
    resp_body resp2 = VersionsBody windows /\
    (forall name,
       sample_container_images !! ("ghcr.io/openslide/linux-builder@" +:+ name)
       = listed_url linux name) /\
    (forall name,
       sample_container_images !! ("ghcr.io/openslide/winbuild-builder@" +:+ name)
       = listed_url windows name) /\
    (forall ref,
       is_Some (sample_container_images !! ref) ->
       exists name,
         ref = "ghcr.io/openslide/linux-builder@" +:+ name \/
         ref = "ghcr.io/openslide/winbuild-builder@" +:+ name).
Proof.
  intros w headers.
  apply (container_images_lookup w headers [] sample_container_images).
  vm_compute. reflexivity.
Defined.

Lemma requests_authorized_witness :
  Forall (authorized "t0k3n")
    (requests_of (run compact_date (sample_world 31 (github [sample_image]))).2).
Proof. apply requests_authorized. vm_compute. reflexivity. Defined.

Lemma persisted_state_is_stable_witness :
  collect_records compact_date second_caller [] = (Ok (drop 2 sample_records), []) /\
  Forall (fun r => req_method r = GET /\ is_release_lookup r = false)
    (requests_of (run compact_date second_caller).2) /\
  ((run compact_date second_caller).1 = Ok tt ->
   persisted (run compact_date second_caller).2 = [drop 2 sample_records]).
Proof.
  apply (persisted_state_is_stable compact_date
           (sample_world 31 (github [sample_image])) second_caller).
  - vm_compute. reflexivity.
  - reflexivity.
  - reflexivity.
  - eexists. vm_compute. reflexivity.
Defined.

Lemma corrupt_state_file_raises_witness :
  run compact_date
    (with_state_file (sample_world 0 (github [sample_image])) (Raise ValueError))
  = (Raise ValueError, []).
Proof.
  exact (corrupt_state_file_raises compact_date
           (with_state_file (sample_world 0 (github [sample_image]))
              (Raise ValueError))
           ValueError eq_refl eq_refl).
Defined.

Lemma no_response_raises_witness :
  (run compact_date (sample_world 31 github_silent)).1 = Raise RequestException /\
  @nil event = [] /\
  persisted (run compact_date (sample_world 31 github_silent)).2 = [].
Proof.
  apply (no_response_raises compact_date (sample_world 31 github_silent)
           [Print "Deleting 20230101-1..."]
           (lookup_request (make_headers "t0k3n") (nightly 1)) []);
    vm_compute; reflexivity.
Defined.

Lemma date_from_prefix_witness :
  build_new_record compact_date sample_args [] []
  = (Ok ([] ++ [new_record sample_args "2023-03-01"]), []) /\
  date (new_record sample_args "2023-03-01") = "2023-03-01" /\
  pkgver (new_record sample_args "2023-03-01") = "20230301" +:+ "-" +:+ "1".
Proof.
  apply (date_from_prefix compact_date sample_args "20230301" "1");
    vm_compute; reflexivity.
Defined.


Lemma deletion_follows_lookup_witness :
  let w := sample_world 31 (github [sample_image]) in
  let headers := make_headers "t0k3n" in
  exists pre' record resp id,
    [Print "Deleting 20230101-1..."; Request (lookup_request headers (nightly 1))]
    = pre' ++ [Request (lookup_request headers record)] /\
    record ∈ take (length sample_records - 30)%nat sample_records /\
    remote w (requests_of pre') (lookup_request headers record) = Reply resp /\
    status_code resp <> 404 /\
    resp_body resp = ReleaseBody id /\
    delete_request headers 7 = delete_request headers id.
Proof.
  intros w headers.
  apply (deletion_follows_lookup compact_date w "t0k3n" sample_records
           [Print "Deleting 20230101-1..."; Request (lookup_request headers (nightly 1))]
           (delete_request headers 7)
           (drop 3 (run compact_date w).2)).
  - reflexivity.
  - exact sample_collect_records.
  - etrans; [symmetry; apply (take_drop 3) |].
    apply (f_equal (fun evs => evs ++ drop 3 (run compact_date w).2)
             (x := take 3 (run compact_date w).2)
             (y := [Print "Deleting 20230101-1...";
                    Request (lookup_request headers (nightly 1));
                    Request (delete_request headers 7)])).
    vm_compute. reflexivity.
  - reflexivity.
Defined.

Lemma builder_link_defined_witness :
  builder_link sample_container_images "linux-builder:latest" = Raise UndefinedError.
Proof.
  apply (builder_link_defined sample_container_images "linux-builder:latest").
  intros Href%digest_ref_has_at. vm_compute in Href. discriminate Href.
Defined.

Lemma update_silent_iff_within_limit_witness :
  update_records (sample_world 2 (github [sample_image])) (make_headers "t0k3n")
    (nightly <$> seqZ 1 2) []
  = (Ok (nightly <$> seqZ 1 2), []).
Proof.
  apply (update_silent_iff_within_limit (sample_world 2 (github [sample_image]))
           (make_headers "t0k3n") (nightly <$> seqZ 1 2) []).
  vm_compute. discriminate.
Defined.
